(** * Circular buffer, architecture layer for non-OS targets with host interface

    A shallow embedding of [stack/src/common/circbuf/circbuf-nooshostif.c]:
    the queue registry [hostifInstance], the instance table [instance_l], the
    operations [circbuf_createInstance], [circbuf_allocBuffer],
    [circbuf_freeBuffer], [circbuf_connectBuffer], [circbuf_lock] and
    [circbuf_unlock], and a two-processor interleaving machine for the
    one-byte lock of a shared queue buffer.

    Conventions.  Pointers and [size_t] values are 32-bit unsigned numbers
    held in [Z] (Nios II, the target of [hostiflib_nios.h]); [NULL] is [0].
    Arithmetic on them wraps modulo [2^32] and the wrap is written out.
    A function returns [None] where the C program leaves the language
    (indexing beyond an array, releasing a block that is not allocated). *)

From Stdlib Require Import ZArith List Bool Lia.
From stdpp Require Import base option list.
Import ListNotations.

Local Open Scope Z_scope.

(* ===================================================================== *)
(** ** Machine integers and pointers *)
(* ===================================================================== *)

Definition SIZE_MODULUS : Z := 2 ^ 32.

(** Reduction of a mathematical result to the 32 bits of [size_t]. *)
Definition to_size_t (z : Z) : Z := z mod SIZE_MODULUS.

(** Reduction to the 8 bits of [UINT8]. *)
Definition to_UINT8 (z : Z) : Z := z mod 256.

Definition NULL : Z := 0.

(* ===================================================================== *)
(** ** Types of the collaborators *)
(* ===================================================================== *)

(** Slot tokens of the host interface driver named by this file.  The
    enumeration is declared in [hostiflib.h]; only the members that occur
    in [hostifInstance] are listed. *)
Inductive tHostifInstanceId : Set :=
| kHostifInstIdU2KQueue
| kHostifInstIdK2UQueue
| kHostifInstIdTxGenQueue
| kHostifInstIdTxNmtQueue
| kHostifInstIdTxSyncQueue
| kHostifInstIdInvalid.

#[global] Instance tHostifInstanceId_eq_dec : EqDecision tHostifInstanceId.
Proof. solve_decision. Defined.

(** Return codes of the host interface driver.  The file compares against
    [kHostifSuccessful] only; every other code is a failure and keeps its
    number. *)
Inductive tHostifReturn : Set :=
| kHostifSuccessful
| kHostifFailure (code : Z).

Definition hostif_ok (r : tHostifReturn) : bool :=
  match r with kHostifSuccessful => true | kHostifFailure _ => false end.

(** Error codes of the circular buffer library used by this file. *)
Inductive tCircBufError : Set :=
| kCircBufOk
| kCircBufNoResource.

#[global] Instance tCircBufError_eq_dec : EqDecision tCircBufError.
Proof. solve_decision. Defined.

(* ===================================================================== *)
(** ** Queue registry *)
(* ===================================================================== *)

(** [const tHostifInstanceId hostifInstance[NR_OF_CIRC_BUFFERS]]. *)
Definition hostifInstance : list tHostifInstanceId :=
  [ kHostifInstIdU2KQueue;      (* User-to-kernel event queue *)
    kHostifInstIdK2UQueue;      (* Kernel-to-user event queue *)
    kHostifInstIdInvalid;       (* Kernel internal event queue *)
    kHostifInstIdInvalid;       (* User internal event queue *)
    kHostifInstIdTxGenQueue;    (* Generic requests in the DLLCAL *)
    kHostifInstIdTxNmtQueue;    (* NMT requests in the DLLCAL *)
    kHostifInstIdTxSyncQueue;   (* Sync requests in the DLLCAL *)
    kHostifInstIdInvalid;       (* NMT request queue, MN async scheduler *)
    kHostifInstIdInvalid;       (* Generic request queue, MN async scheduler *)
    kHostifInstIdInvalid;       (* Ident request queue, MN async scheduler *)
    kHostifInstIdInvalid ].     (* Status request queue, MN async scheduler *)

(** The table has one initialiser per circular buffer. *)
Definition NR_OF_CIRC_BUFFERS : nat := length hostifInstance.

(* ===================================================================== *)
(** ** Lock values and envelope layout *)
(* ===================================================================== *)

Definition CIRCBUF_HOSTIF_UNLOCK : Z := 0.

(** [CIRCBUF_HOSTIF_LOCK] is [0x01] when the file is built for the PCP
    ([CONFIG_HOSTIF_PCP == TRUE]) and [0x02] when built for the host. *)
Definition CIRCBUF_HOSTIF_LOCK (CONFIG_HOSTIF_PCP : bool) : Z :=
  if CONFIG_HOSTIF_PCP then 1 else 2.

(** Layout of [tCircBufHostiBuffer]: [UINT8 lock] at offset 0,
    [UINT8 aReserved[3]] at offset 1, [tCircBufHeader circBufHeader] next. *)
Definition offsetof_lock : Z := 0.
Definition offsetof_aReserved : Z := 1.

(** Modelled from the spec: [tCircBufHeader] is declared with the generic
    circular buffer library; the layout table of the shared window puts the
    ring header at offset 4, right after the reserved bytes. *)
Definition offsetof_circBufHeader : Z := 4.

(** Per-process queue handle, with the fields this file reads or writes. *)
Record tCircBufInstance : Set := mkInstance {
  pCircBufArchInstance : Z;   (* void*: host interface handle, or NULL *)
  bufferId : nat;             (* UINT8 *)
  pCircBufHeader : Z;         (* tCircBufHeader* *)
  pCircBuf : Z                (* BYTE* *)
}.

Definition set_pCircBufArchInstance (p : Z) (i : tCircBufInstance) :=
  mkInstance p (bufferId i) (pCircBufHeader i) (pCircBuf i).
Definition set_bufferId (id : nat) (i : tCircBufInstance) :=
  mkInstance (pCircBufArchInstance i) id (pCircBufHeader i) (pCircBuf i).
Definition set_pCircBufHeader (p : Z) (i : tCircBufInstance) :=
  mkInstance (pCircBufArchInstance i) (bufferId i) p (pCircBuf i).
Definition set_pCircBuf (p : Z) (i : tCircBufInstance) :=
  mkInstance (pCircBufArchInstance i) (bufferId i) (pCircBufHeader i) p.

(** [GET_QUEUE_BUF_BASE(pHeader)]:
    [((size_t)pHeader) - (size_t)&((tCircBufHostiBuffer* )0)->circBufHeader]. *)
Definition GET_QUEUE_BUF_BASE (pHeader : Z) : Z :=
  to_size_t (to_size_t pHeader - to_size_t offsetof_circBufHeader).

(** [&(pHostifBuffer->field)]: address of a field of the envelope. *)
Definition field_address (pHostifBuffer offset : Z) : Z :=
  to_size_t (pHostifBuffer + offset).

(* ===================================================================== *)
(** ** Cache bypass ([hostiflib_nios.h]) *)
(* ===================================================================== *)

(** Reduction of a mathematical result to the 32 bits of a signed [int]. *)
Definition to_int (z : Z) : Z :=
  (z + 2 ^ 31) mod SIZE_MODULUS - 2 ^ 31.

(** [NIOS2_BYPASS_DCACHE_MASK]: [(0x1 << 29)] when [NIOS2_MMU_PRESENT] is
    defined, [(0x1 << 31)] otherwise; the shift is done in [int]. *)
Definition NIOS2_BYPASS_DCACHE_MASK (NIOS2_MMU_PRESENT : bool) : Z :=
  if NIOS2_MMU_PRESENT then to_int (Z.shiftl 1 29) else to_int (Z.shiftl 1 31).

(** The address bit that the mask sets. *)
Definition bypass_bit (NIOS2_MMU_PRESENT : bool) : Z :=
  if NIOS2_MMU_PRESENT then 29 else 31.

(** [HOSTIF_MAKE_NONCACHEABLE(ptr)]:
    [(void* )(((unsigned long)ptr)|NIOS2_BYPASS_DCACHE_MASK)]; the mask is
    converted to [unsigned long] for the [|]. *)
Definition HOSTIF_MAKE_NONCACHEABLE (NIOS2_MMU_PRESENT : bool) (ptr : Z) : Z :=
  Z.lor (to_size_t ptr) (to_size_t (NIOS2_BYPASS_DCACHE_MASK NIOS2_MMU_PRESENT)).

(* ===================================================================== *)
(** ** The world the operations act on *)
(* ===================================================================== *)

(** Byte memory reached through the host interface, the log of the byte
    writes this processor issued (most recent first), the number of
    accesses issued so far, the blocks handed out by the allocator and not
    released (start, length), the global interrupt enable, and the tokens
    of the interrupt gate: the states to restore, innermost first. *)
Record world : Type := mkWorld {
  mem : Z -> Z;
  wr_log : list (Z * Z);
  clock : nat;
  heap : list (Z * Z);
  irq : bool;
  irq_saved : list bool
}.

Definition set_gate (b : bool) (saved : list bool) (w : world) : world :=
  mkWorld (mem w) (wr_log w) (clock w) (heap w) b saved.
Definition set_heap (h : list (Z * Z)) (w : world) : world :=
  mkWorld (mem w) (wr_log w) (clock w) h (irq w) (irq_saved w).

Definition store (a v : Z) (m : Z -> Z) : Z -> Z :=
  fun a' => if Z.eqb a' a then v else m a'.

(** Modelled from the spec: [target_enableGlobalInterrupt] is code of the
    target layer, which is not among the sources at hand.  The interrupt
    gate of the spec: disabling masks the interrupts and yields a token,
    restoring re-enables exactly the state prior to the disable; nesting is
    permitted and the outer restore is the effective one.  [FALSE]
    disables and keeps the token, [TRUE] restores from the innermost token.
    The spec does not say what [TRUE] does with no disable outstanding; the
    interrupts are then enabled, and nothing below rests on that case. *)
Definition target_enableGlobalInterrupt (fEnable : bool) (w : world) : world :=
  if fEnable then
    match irq_saved w with
    | token :: outer => set_gate token outer w
    | [] => set_gate true [] w
    end
  else set_gate false (irq w :: irq_saved w) w.

(** The other processor leaves the memory alone. *)
Definition quiet : nat -> (Z -> Z) -> (Z -> Z) := fun _ m => m.

(** The values a processor built with the given configuration gives the
    lock byte: [UNLOCK] or its own identity, never the identity of the
    other side. *)
Definition own_value (CONFIG_HOSTIF_PCP : bool) (v : Z) : Prop :=
  (v = CIRCBUF_HOSTIF_UNLOCK \/ v = CIRCBUF_HOSTIF_LOCK CONFIG_HOSTIF_PCP) /\
  v <> CIRCBUF_HOSTIF_LOCK (negb CONFIG_HOSTIF_PCP).

(** The writes added to the log between two worlds all carry an own
    value. *)
Definition writes_own (CONFIG_HOSTIF_PCP : bool) (before after : world)
  : Prop :=
  exists new,
    wr_log after = new ++ wr_log before /\
    Forall (fun e => own_value CONFIG_HOSTIF_PCP (snd e)) new.

Section Target.

(** Build configuration: [CONFIG_HOSTIF_PCP]. *)
Variable CONFIG_HOSTIF_PCP : bool.

(** [sizeof(tCircBufHeader)]; the type is declared with the generic
    circular buffer library. *)
Variable sizeof_tCircBufHeader : Z.

(** [hostif_getInstance(index)]: the window handle, or [NULL]. *)
Variable hostif_getInstance : Z -> Z.

(** [hostif_getBuf(pHostif, slot, &pBufBase, &bufSize)]: return code and
    the two values stored through the out parameters. *)
Variable hostif_getBuf : Z -> tHostifInstanceId -> tHostifReturn * Z * Z.

(** Address chosen by the allocator for a request of the given length in
    the given heap; [NULL] when the request is refused. *)
Variable malloc_choice : list (Z * Z) -> Z -> Z.

(** What the other processor does to the memory between two accesses of
    this one; the argument is the number of the access about to happen. *)
Variable remote : nat -> (Z -> Z) -> (Z -> Z).

(** [sizeof(tCircBufHostiBuffer)]: the lock, the reserved bytes and the
    header. *)
Definition sizeof_tCircBufHostiBuffer : Z :=
  offsetof_circBufHeader + sizeof_tCircBufHeader.

(** Modelled from the spec: [HOSTIF_RD8] expands to [IORD_8DIRECT], which
    is declared outside the repository; a width-exact, uncached read of
    the byte at [(base, offset)]. *)
Definition HOSTIF_RD8 (base offset : Z) (w : world) : Z * world :=
  let m := remote (clock w) (mem w) in
  (to_UINT8 (m (base + offset)),
   mkWorld m (wr_log w) (S (clock w)) (heap w) (irq w) (irq_saved w)).

(** Modelled from the spec: [HOSTIF_WR8] expands to [IOWR_8DIRECT], which
    is declared outside the repository; a width-exact, uncached write of
    the byte at [(base, offset)]. *)
Definition HOSTIF_WR8 (base offset byte : Z) (w : world) : world :=
  let m := remote (clock w) (mem w) in
  mkWorld (store (base + offset) (to_UINT8 byte) m)
          ((base + offset, to_UINT8 byte) :: wr_log w)
          (S (clock w)) (heap w) (irq w) (irq_saved w).

(** Modelled from the spec: [OPLK_MALLOC] is the target's [malloc]; the
    block it returns is recorded as allocated. *)
Definition OPLK_MALLOC (size : Z) (w : world) : Z * world :=
  let p := malloc_choice (heap w) size in
  (p, if Z.eqb p NULL then w else set_heap ((p, size) :: heap w) w).

Definition is_block (p : Z) (b : Z * Z) : bool := Z.eqb (fst b) p.

(** Modelled from the spec: [OPLK_FREE] is the target's [free]; nothing
    happens for [NULL], an allocated block is released, and releasing
    anything else is undefined. *)
Definition OPLK_FREE (p : Z) (w : world) : option world :=
  if Z.eqb p NULL then Some w
  else if existsb (is_block p) (heap w)
       then Some (set_heap (List.filter (fun b => negb (is_block p b)) (heap w)) w)
       else None.

(* =================================================================== *)
(** ** Public functions *)
(* =================================================================== *)

(** [circbuf_createInstance(id_p)].  The result is the index of the
    returned element of [instance_l] ([None] for [NULL]) and the table
    after the call. *)
Definition circbuf_createInstance (id_p : nat)
    (instance_l : list tCircBufInstance)
  : option (option nat * list tCircBufInstance) :=
  pInstance ← instance_l !! id_p;
  slot ← hostifInstance !! id_p;
  if decide (slot = kHostifInstIdInvalid) then
    (* Queue must use local resources *)
    let i1 := set_pCircBufArchInstance NULL pInstance in
    let i2 := set_bufferId id_p i1 in
    Some (Some id_p, <[id_p := i2]> instance_l)
  else
    (* Queue must use host interface *)
    let pHostif := hostif_getInstance 0 in
    if Z.eqb pHostif NULL then Some (None, instance_l)
    else
      let i1 := set_pCircBufArchInstance pHostif pInstance in
      let i2 := set_bufferId id_p i1 in
      Some (Some id_p, <[id_p := i2]> instance_l).

(** [circbuf_freeInstance(pInstance_p)]. *)
Definition circbuf_freeInstance (pInstance_p : tCircBufInstance) (w : world)
  : tCircBufInstance * world := (pInstance_p, w).

(** [circbuf_allocBuffer(pInstance_p, pSize_p)].  The result is the
    error code, the instance, the value left in [*pSize_p] and the
    world. *)
Definition circbuf_allocBuffer (pInstance_p : tCircBufInstance)
    (pSize_p : Z) (w : world)
  : option (tCircBufError * tCircBufInstance * Z * world) :=
  let size := pSize_p in
  if Z.eqb (pCircBufArchInstance pInstance_p) NULL then
    (* Allocate requested size + header *)
    let size := to_size_t (size + sizeof_tCircBufHeader) in
    let '(p, w1) := OPLK_MALLOC size w in
    let i1 := set_pCircBufHeader p pInstance_p in
    if Z.eqb (pCircBufHeader i1) NULL then
      Some (kCircBufNoResource, i1, pSize_p, w1)
    else
      let i2 := set_pCircBuf
                  (to_size_t (pCircBufHeader i1 + sizeof_tCircBufHeader)) i1 in
      (* Return buffer size: pSize_p already holds the right value! *)
      Some (kCircBufOk, i2, pSize_p, w1)
  else
    (* Queue must use host interface *)
    let pHostif := pCircBufArchInstance pInstance_p in
    slot ← hostifInstance !! bufferId pInstance_p;
    let '(ret, pBufBase, bufSize) := hostif_getBuf pHostif slot in
    if negb (hostif_ok ret) then
      Some (kCircBufNoResource, pInstance_p, pSize_p, w)
    else if Z.ltb bufSize size then
      (* not enough memory available *)
      Some (kCircBufNoResource, pInstance_p, pSize_p, w)
    else
      let pHostifBuffer := pBufBase in
      let i1 := set_pCircBufHeader
                  (field_address pHostifBuffer offsetof_circBufHeader)
                  pInstance_p in
      let i2 := set_pCircBuf
                  (to_size_t (pHostifBuffer + sizeof_tCircBufHostiBuffer))
                  i1 in
      let size := to_size_t (size - sizeof_tCircBufHostiBuffer) in
      (* Return buffer size *)
      let w1 := HOSTIF_WR8 (field_address pHostifBuffer offsetof_lock) 0
                           CIRCBUF_HOSTIF_UNLOCK w in
      Some (kCircBufOk, i2, size, w1).

(** [circbuf_freeBuffer(pInstance_p)]. *)
Definition circbuf_freeBuffer (pInstance_p : tCircBufInstance) (w : world)
  : option (tCircBufInstance * world) :=
  if Z.eqb (pCircBufArchInstance pInstance_p) NULL then
    w1 ← OPLK_FREE (pCircBufHeader pInstance_p) w;
    Some (pInstance_p, w1)
  else Some (pInstance_p, w).

(** [circbuf_connectBuffer(pInstance_p)].  The [TRACE] line prints and
    changes nothing. *)
Definition circbuf_connectBuffer (pInstance_p : tCircBufInstance) (w : world)
  : option (tCircBufError * tCircBufInstance * world) :=
  if negb (Z.eqb (pCircBufArchInstance pInstance_p) NULL) then
    (* Queue must use host interface *)
    let pHostif := pCircBufArchInstance pInstance_p in
    slot ← hostifInstance !! bufferId pInstance_p;
    let '(ret, pBufBase, bufSize) := hostif_getBuf pHostif slot in
    if negb (hostif_ok ret) then
      Some (kCircBufNoResource, pInstance_p, w)
    else
      let pHostifBuffer := pBufBase in
      let i1 := set_pCircBufHeader
                  (field_address pHostifBuffer offsetof_circBufHeader)
                  pInstance_p in
      let i2 := set_pCircBuf
                  (to_size_t (pHostifBuffer + sizeof_tCircBufHostiBuffer))
                  i1 in
      Some (kCircBufOk, i2, w)
  else Some (kCircBufOk, pInstance_p, w).

(** [circbuf_disconnectBuffer(pInstance_p)]. *)
Definition circbuf_disconnectBuffer (pInstance_p : tCircBufInstance)
    (w : world) : tCircBufInstance * world := (pInstance_p, w).

(** One pass through the body of the [do ... while] of [circbuf_lock],
    followed by the evaluation of its condition.  [continue] in a
    [do ... while] jumps to the condition, so both paths through the body
    end there.  The result is the value of [lockValue], the world, and
    whether the condition asks for another pass. *)
Definition lock_pass (pHostifBuf : Z) (w : world) : Z * world * bool :=
  let '(lockValue, w1) :=
    HOSTIF_RD8 (field_address pHostifBuf offsetof_lock) 0 w in
  let w2 :=
    if Z.eqb lockValue CIRCBUF_HOSTIF_UNLOCK then
      (* Write lock value to queue; continue *)
      HOSTIF_WR8 (field_address pHostifBuf offsetof_lock) 0
                 (CIRCBUF_HOSTIF_LOCK CONFIG_HOSTIF_PCP) w1
    else w1 in
  (lockValue, w2,
   negb (Z.eqb lockValue (CIRCBUF_HOSTIF_LOCK CONFIG_HOSTIF_PCP))).

(** The [do ... while] loop, run for at most [fuel] passes.  The world
    reached is returned in every case; the second component is the last
    value of [lockValue] when the loop was left, [None] when the passes
    ran out with the loop still spinning. *)
Fixpoint lock_loop (fuel : nat) (pHostifBuf : Z) (w : world)
  : world * option Z :=
  match fuel with
  | O => (w, None)
  | S fuel' =>
      let '(lockValue, w1, again) := lock_pass pHostifBuf w in
      if again then lock_loop fuel' pHostifBuf w1
      else (w1, Some lockValue)
  end.

(** How a call of [circbuf_lock] ended within the passes granted. *)
Inductive lock_exit : Set :=
| Spinning                          (* still inside the loop *)
| Returned (lockValue : option Z).  (* returned; last value read, if any *)

(** [circbuf_lock(pInstance_p)]. *)
Definition circbuf_lock (fuel : nat) (pInstance_p : tCircBufInstance)
    (w : world) : world * lock_exit :=
  let w0 := target_enableGlobalInterrupt false w in
  if negb (Z.eqb (pCircBufArchInstance pInstance_p) NULL) then
    let pHostifBuf := GET_QUEUE_BUF_BASE (pCircBufHeader pInstance_p) in
    match lock_loop fuel pHostifBuf w0 with
    | (w1, Some lockValue) => (w1, Returned (Some lockValue))
    | (w1, None) => (w1, Spinning)
    end
  else (w0, Returned None).

(** [circbuf_unlock(pInstance_p)]. *)
Definition circbuf_unlock (pInstance_p : tCircBufInstance) (w : world)
  : world :=
  let w1 :=
    if negb (Z.eqb (pCircBufArchInstance pInstance_p) NULL) then
      let pHostifBuf := GET_QUEUE_BUF_BASE (pCircBufHeader pInstance_p) in
      (* Write unlock value to queue *)
      HOSTIF_WR8 (field_address pHostifBuf offsetof_lock) 0
                 CIRCBUF_HOSTIF_UNLOCK w
    else w in
  target_enableGlobalInterrupt true w1.

End Target.

(** [circbuf_lock] on the instance acts on the byte at [a].  One pass of
    its loop reads that byte, as the other processor has left it: when it
    holds the own identity the call returns; when it holds [UNLOCK] the own
    identity is written to it and the loop goes on; when it holds anything
    else the loop goes on without a write.  However many passes are
    granted, every write of the call stores the own identity at [a]. *)
Definition lock_acts_on_byte (CONFIG_HOSTIF_PCP : bool)
    (remote : nat -> (Z -> Z) -> (Z -> Z))
    (inst : tCircBufInstance) (a : Z) : Prop :=
  forall w,
    let own := CIRCBUF_HOSTIF_LOCK CONFIG_HOSTIF_PCP in
    let gate := target_enableGlobalInterrupt false w in
    let m := remote (clock w) (mem w) in
    let v := to_UINT8 (m a) in
    let seen := mkWorld m (wr_log w) (S (clock w)) (heap w)
                        (irq gate) (irq_saved gate) in
    let written := mkWorld (store a own (remote (S (clock w)) m))
                           ((a, own) :: wr_log w) (S (S (clock w))) (heap w)
                           (irq gate) (irq_saved gate) in
    (v = own ->
       circbuf_lock CONFIG_HOSTIF_PCP remote 1 inst w
       = (seen, Returned (Some own))) /\
    (v = CIRCBUF_HOSTIF_UNLOCK ->
       circbuf_lock CONFIG_HOSTIF_PCP remote 1 inst w = (written, Spinning)) /\
    (v <> CIRCBUF_HOSTIF_UNLOCK -> v <> own ->
       circbuf_lock CONFIG_HOSTIF_PCP remote 1 inst w = (seen, Spinning)) /\
    (forall fuel,
       exists new,
         wr_log (fst (circbuf_lock CONFIG_HOSTIF_PCP remote fuel inst w))
           = new ++ wr_log w /\
         Forall (fun e => e = (a, own)) new).

(* ===================================================================== *)
(** ** Two processors on one shared buffer *)
(* ===================================================================== *)

(** Both processors run the code above, the PCP built with
    [CONFIG_HOSTIF_PCP == TRUE] and the host with [FALSE], on the same
    envelope.  A step of the machine is one access to the lock byte by one
    processor, together with the local computation up to its next access;
    the steps of the two processors interleave in any order. *)
Module TwoCpu.

Inductive cpu_id : Set := PCP | HOST.

Definition config_of (c : cpu_id) : bool :=
  match c with PCP => true | HOST => false end.

Definition own_lock (c : cpu_id) : Z := CIRCBUF_HOSTIF_LOCK (config_of c).

(** Where a processor stands in [circbuf_lock] ... [circbuf_unlock]. *)
Inductive pc : Set :=
| Outside    (* not in the locked section; next: call circbuf_lock *)
| AtRead     (* head of the loop; next: lockValue = HOSTIF_RD8(...) *)
| AtWrite    (* read UNLOCK; next: HOSTIF_WR8(..., CIRCBUF_HOSTIF_LOCK) *)
| Locked.    (* circbuf_lock returned; next: circbuf_unlock *)

(** Program point, the local [lockValue], and the processor's own
    world (its write log and interrupt enable; its view of the memory is
    refreshed from the shared memory at each access). *)
Record cpu : Type := mkCpu {
  at_pc : pc;
  lockValue : Z;
  own : world
}.

Record system : Type := mkSystem {
  shared : Z -> Z;
  pcp : cpu;
  host : cpu
}.

Definition cpu_of (c : cpu_id) (s : system) : cpu :=
  match c with PCP => pcp s | HOST => host s end.

Definition with_mem (m : Z -> Z) (w : world) : world :=
  mkWorld m (wr_log w) (clock w) (heap w) (irq w) (irq_saved w).

(** One step of processor [c] on the envelope at [pHostifBuf]. *)
Definition cpu_step (c : cpu_id) (pHostifBuf : Z) (m : Z -> Z) (p : cpu)
  : cpu * (Z -> Z) :=
  let w := with_mem m (own p) in
  match at_pc p with
  | Outside =>
      (* target_enableGlobalInterrupt(FALSE); enter the loop *)
      (mkCpu AtRead (lockValue p) (target_enableGlobalInterrupt false w), m)
  | AtRead =>
      let '(v, w1) :=
        HOSTIF_RD8 quiet (field_address pHostifBuf offsetof_lock) 0 w in
      if Z.eqb v CIRCBUF_HOSTIF_UNLOCK then (mkCpu AtWrite v w1, mem w1)
      else if negb (Z.eqb v (own_lock c)) then (mkCpu AtRead v w1, mem w1)
      else (mkCpu Locked v w1, mem w1)
  | AtWrite =>
      let w1 := HOSTIF_WR8 quiet (field_address pHostifBuf offsetof_lock) 0
                           (own_lock c) w in
      (* continue: the loop condition is evaluated on lockValue *)
      if negb (Z.eqb (lockValue p) (own_lock c))
      then (mkCpu AtRead (lockValue p) w1, mem w1)
      else (mkCpu Locked (lockValue p) w1, mem w1)
  | Locked =>
      (* circbuf_unlock *)
      let w1 := HOSTIF_WR8 quiet (field_address pHostifBuf offsetof_lock) 0
                           CIRCBUF_HOSTIF_UNLOCK w in
      (mkCpu Outside (lockValue p) (target_enableGlobalInterrupt true w1),
       mem w1)
  end.

Definition step (pHostifBuf : Z) (c : cpu_id) (s : system) : system :=
  match c with
  | PCP => let '(p, m) := cpu_step PCP pHostifBuf (shared s) (pcp s) in
           mkSystem m p (host s)
  | HOST => let '(p, m) := cpu_step HOST pHostifBuf (shared s) (host s) in
            mkSystem m (pcp s) p
  end.

(** A schedule names the processor that takes each step. *)
Fixpoint run (pHostifBuf : Z) (schedule : list cpu_id) (s : system)
  : system :=
  match schedule with
  | [] => s
  | c :: rest => run pHostifBuf rest (step pHostifBuf c s)
  end.

(** Processor [c] is past [circbuf_lock], the last value it read being
    its own lock identity, and has not run [circbuf_unlock]. *)
Definition holds (c : cpu_id) (s : system) : bool :=
  match at_pc (cpu_of c s) with
  | Locked => Z.eqb (lockValue (cpu_of c s)) (own_lock c)
  | _ => false
  end.

Definition fresh_world (m : Z -> Z) : world :=
  mkWorld m [] 0%nat [] true [].

(** Both processors outside the locked section, on memory [m]. *)
Definition start (m : Z -> Z) : system :=
  mkSystem m (mkCpu Outside 0 (fresh_world m)) (mkCpu Outside 0 (fresh_world m)).

(** [n] consecutive steps of processor [c], the other one standing still. *)
Fixpoint alone (c : cpu_id) (pHostifBuf : Z) (n : nat) (p : cpu) (m : Z -> Z)
  : cpu * (Z -> Z) :=
  match n with
  | O => (p, m)
  | S n' => let '(p1, m1) := cpu_step c pHostifBuf m p in
            alone c pHostifBuf n' p1 m1
  end.

(** What decides the course of the lock: the program point and
    [lockValue] of either processor, and the lock byte. *)
Record lock_view : Set := mkView {
  v_pcp : pc * Z;
  v_host : pc * Z;
  v_lock : Z
}.

Definition view (pHostifBuf : Z) (s : system) : lock_view :=
  mkView (at_pc (pcp s), lockValue (pcp s))
         (at_pc (host s), lockValue (host s))
         (to_UINT8 (shared s (field_address pHostifBuf offsetof_lock + 0))).

(** [cpu_step] seen through [view]. *)
Definition view_cpu_step (c : cpu_id) (p : pc * Z) (lock : Z)
  : (pc * Z) * Z :=
  match fst p with
  | Outside => ((AtRead, snd p), lock)
  | AtRead =>
      if Z.eqb lock CIRCBUF_HOSTIF_UNLOCK then ((AtWrite, lock), lock)
      else if negb (Z.eqb lock (own_lock c)) then ((AtRead, lock), lock)
      else ((Locked, lock), lock)
  | AtWrite =>
      if negb (Z.eqb (snd p) (own_lock c))
      then ((AtRead, snd p), own_lock c)
      else ((Locked, snd p), own_lock c)
  | Locked => ((Outside, snd p), CIRCBUF_HOSTIF_UNLOCK)
  end.

Definition view_step (c : cpu_id) (v : lock_view) : lock_view :=
  match c with
  | PCP => let '(p, l) := view_cpu_step PCP (v_pcp v) (v_lock v) in
           mkView p (v_host v) l
  | HOST => let '(p, l) := view_cpu_step HOST (v_host v) (v_lock v) in
            mkView (v_pcp v) p l
  end.

Definition view_run (schedule : list cpu_id) (v : lock_view) : lock_view :=
  fold_left (fun v c => view_step c v) schedule v.

(** [holds] seen through [view]. *)
Definition view_holds (c : cpu_id) (v : lock_view) : bool :=
  let p := match c with PCP => v_pcp v | HOST => v_host v end in
  match fst p with
  | Locked => Z.eqb (snd p) (own_lock c)
  | _ => false
  end.

(** Both processors stand between their read of [UNLOCK] and their write
    of the identity. *)
Definition both_writing (s : system) : bool :=
  match at_pc (pcp s), at_pc (host s) with
  | AtWrite, AtWrite => true
  | _, _ => false
  end.

(** No state that the schedule visits, the first and the last included,
    has both processors between the read and the write. *)
Fixpoint race_free (pHostifBuf : Z) (schedule : list cpu_id) (s : system)
  : bool :=
  negb (both_writing s) &&
  match schedule with
  | [] => true
  | c :: rest => race_free pHostifBuf rest (step pHostifBuf c s)
  end.

(** What the lock byte and [lockValue] are at the program points that
    matter: a processor about to write has read [UNLOCK] and the byte still
    holds it; a processor past the loop has read its identity and the byte
    still holds it. *)
Definition lock_inv (v : lock_view) : Prop :=
  (fst (v_pcp v) = AtWrite ->
     v_lock v = CIRCBUF_HOSTIF_UNLOCK /\
     snd (v_pcp v) = CIRCBUF_HOSTIF_UNLOCK) /\
  (fst (v_pcp v) = Locked ->
     v_lock v = own_lock PCP /\ snd (v_pcp v) = own_lock PCP) /\
  (fst (v_host v) = AtWrite ->
     v_lock v = CIRCBUF_HOSTIF_UNLOCK /\
     snd (v_host v) = CIRCBUF_HOSTIF_UNLOCK) /\
  (fst (v_host v) = Locked ->
     v_lock v = own_lock HOST /\ snd (v_host v) = own_lock HOST).

(** Interrupts are on outside the locked section, with no disable
    outstanding, and off inside, with the one token of [circbuf_lock]. *)
Definition irq_inv (p : cpu) : Prop :=
  match at_pc p with
  | Outside => irq (own p) = true /\ irq_saved (own p) = []
  | _ => irq (own p) = false /\ irq_saved (own p) = [true]
  end.

(** The PCP takes the lock while the host waits, releases it, and the host
    takes it. *)
Definition handover : list cpu_id :=
  [ PCP; PCP; PCP; PCP;     (* PCP: enters, reads 0, writes 1, reads 1 *)
    HOST; HOST; HOST;       (* host: enters, reads 1, reads 1 *)
    PCP;                    (* PCP: circbuf_unlock *)
    HOST; HOST; HOST ].     (* host: reads 0, writes 2, reads 2 *)

(** Both processors call [circbuf_lock] and read [UNLOCK] before either
    has written; the PCP then writes its identity and reads it back, and
    the host does the same after it. *)
Definition race : list cpu_id :=
  [ PCP;    (* PCP:  target_enableGlobalInterrupt(FALSE) *)
    HOST;   (* host: target_enableGlobalInterrupt(FALSE) *)
    PCP;    (* PCP:  reads UNLOCK *)
    HOST;   (* host: reads UNLOCK *)
    PCP;    (* PCP:  writes 0x01 *)
    PCP;    (* PCP:  reads 0x01, leaves circbuf_lock *)
    HOST;   (* host: writes 0x02 *)
    HOST ]. (* host: reads 0x02, leaves circbuf_lock *)

End TwoCpu.

(* ===================================================================== *)
(** ** A concrete target *)
(* ===================================================================== *)

(** [HOSTIF_BASE] of [hostiflib_nios.h], used as the window handle. *)
Definition HOSTIF_BASE : Z := 0x10000000.

(** A header of five 32-bit words. *)
Definition sample_sizeof_header : Z := 20.

Definition sample_getInstance : Z -> Z := fun _ => HOSTIF_BASE.
Definition absent_getInstance : Z -> Z := fun _ => NULL.

(** Every slot is a window of 2048 bytes at [HOSTIF_BASE + 0x800]. *)
Definition sample_base : Z := HOSTIF_BASE + 0x800.
Definition sample_getBuf : Z -> tHostifInstanceId -> tHostifReturn * Z * Z :=
  fun _ _ => (kHostifSuccessful, sample_base, 2048).

(** The allocator answers every request with the block at [0x2000]. *)
Definition sample_malloc : list (Z * Z) -> Z -> Z := fun _ _ => 0x2000.

(** An allocator that refuses every request. *)
Definition null_malloc : list (Z * Z) -> Z -> Z := fun _ _ => NULL.

(** An allocator that answers with [0x2000] on an empty heap and with
    [0x3000] otherwise. *)
Definition next_malloc : list (Z * Z) -> Z -> Z :=
  fun h _ => match h with [] => 0x2000 | _ :: _ => 0x3000 end.

(** Memory that holds [v] in every byte; nothing allocated; interrupts
    on, no disable outstanding. *)
Definition sample_world (v : Z) : world :=
  mkWorld (fun _ => v) [] 0%nat [] true [].

(** The same memory inside a section that has disabled the interrupts:
    interrupts off, one token outstanding. *)
Definition masked_world (v : Z) : world :=
  mkWorld (fun _ => v) [] 0%nat [] false [true].

(** The instance table before any call. *)
Definition sample_instance_l : list tCircBufInstance :=
  replicate NR_OF_CIRC_BUFFERS (mkInstance NULL 0 NULL NULL).

(** Instance 0 (user-to-kernel event queue) as [circbuf_createInstance]
    leaves it, and the same after [circbuf_allocBuffer]. *)
Definition shared_instance : tCircBufInstance :=
  mkInstance HOSTIF_BASE 0 NULL NULL.
Definition shared_instance_ready : tCircBufInstance :=
  mkInstance HOSTIF_BASE 0 (sample_base + 4) (sample_base + 24).

(** Instance 2 (kernel internal event queue), local-only, before and after
    [circbuf_allocBuffer]. *)
Definition local_instance : tCircBufInstance :=
  mkInstance NULL 2 NULL NULL.
Definition local_instance_ready : tCircBufInstance :=
  mkInstance NULL 2 0x2000 (0x2000 + 20).

(* ===================================================================== *)
(** ** Properties *)
(* ===================================================================== *)

(** *** Arithmetic of the 32-bit and 8-bit reductions *)

Lemma to_size_t_small (z : Z) : 0 <= z < SIZE_MODULUS -> to_size_t z = z.
Proof. intros H. unfold to_size_t. now apply Z.mod_small. Qed.

Lemma store_same (a v : Z) (m : Z -> Z) : store a v m a = v.
Proof. unfold store. now rewrite Z.eqb_refl. Qed.

(** The interrupt gate touches nothing but the enable and its tokens. *)
Lemma gate_frame (fEnable : bool) (w : world) :
  mem (target_enableGlobalInterrupt fEnable w) = mem w /\
  wr_log (target_enableGlobalInterrupt fEnable w) = wr_log w /\
  clock (target_enableGlobalInterrupt fEnable w) = clock w /\
  heap (target_enableGlobalInterrupt fEnable w) = heap w.
Proof.
  unfold target_enableGlobalInterrupt.
  destruct fEnable; [destruct (irq_saved w) |]; repeat split.
Qed.

Lemma gate_wr_log (fEnable : bool) (w : world) :
  wr_log (target_enableGlobalInterrupt fEnable w) = wr_log w.
Proof. apply gate_frame. Qed.

Lemma gate_mem (fEnable : bool) (w : world) :
  mem (target_enableGlobalInterrupt fEnable w) = mem w.
Proof. apply gate_frame. Qed.

Lemma gate_clock (fEnable : bool) (w : world) :
  clock (target_enableGlobalInterrupt fEnable w) = clock w.
Proof. apply gate_frame. Qed.

Lemma gate_heap (fEnable : bool) (w : world) :
  heap (target_enableGlobalInterrupt fEnable w) = heap w.
Proof. apply gate_frame. Qed.

Lemma to_UINT8_lock (cfg : bool) :
  to_UINT8 (CIRCBUF_HOSTIF_LOCK cfg) = CIRCBUF_HOSTIF_LOCK cfg.
Proof. now destruct cfg. Qed.

Lemma lock_is_not_unlock (cfg : bool) :
  Z.eqb (CIRCBUF_HOSTIF_LOCK cfg) CIRCBUF_HOSTIF_UNLOCK = false.
Proof. now destruct cfg. Qed.

Lemma field_address_lock (b : Z) :
  0 <= b < SIZE_MODULUS -> field_address b offsetof_lock + 0 = b.
Proof.
  intros H. unfold field_address, offsetof_lock.
  rewrite !Z.add_0_r. now apply to_size_t_small.
Qed.

Lemma GET_QUEUE_BUF_BASE_header (b : Z) :
  0 <= b < SIZE_MODULUS ->
  GET_QUEUE_BUF_BASE (field_address b offsetof_circBufHeader) = b.
Proof.
  intros H. unfold GET_QUEUE_BUF_BASE, field_address, to_size_t.
  rewrite Z.mod_mod by (unfold SIZE_MODULUS; lia).
  rewrite Zminus_mod_idemp_l, Zminus_mod_idemp_r.
  replace (b + offsetof_circBufHeader - offsetof_circBufHeader) with b by lia.
  now apply Z.mod_small.
Qed.

(** *** The registry *)

Example NR_OF_CIRC_BUFFERS_value : NR_OF_CIRC_BUFFERS = 11%nat.
Proof. reflexivity. Qed.

(** The shared queues are the two event queues between the layers and the
    three transmit queues of the DLLCAL. *)
Example shared_queue_ids :
  List.filter (fun id => bool_decide (hostifInstance !! id <> Some kHostifInstIdInvalid))
         (seq 0 NR_OF_CIRC_BUFFERS)
  = [0; 1; 4; 5; 6]%nat.
Proof. reflexivity. Qed.

(** Without a host interface instance a shared queue cannot be created,
    a local-only queue can. *)
Example createInstance_absent_shared :
  circbuf_createInstance absent_getInstance 0 sample_instance_l
  = Some (None, sample_instance_l).
Proof. reflexivity. Qed.

Example createInstance_absent_local :
  circbuf_createInstance absent_getInstance 2 sample_instance_l
  = Some (Some 2%nat, <[2%nat := local_instance]> sample_instance_l).
Proof. reflexivity. Qed.

(** While the lock byte holds the identity of the host, the PCP spins:
    fifty passes read fifty times, write nothing and do not end the loop. *)
Example lock_spins_while_host_holds :
  let '(w, e) := circbuf_lock true quiet 50 shared_instance_ready
                   (sample_world 2) in
  e = Spinning /\ wr_log w = [] /\ clock w = 50%nat /\ irq w = false.
Proof. vm_compute. repeat split. Qed.

Section Create.

Variable hostif_getInstance : Z -> Z.

(** C7.  For every [id] below [NR_OF_CIRC_BUFFERS], [circbuf_createInstance]
    returns [NULL] exactly when the registry maps [id] to a shared slot and
    [hostif_getInstance(0)] yields no instance (the table of instances is
    then left as it was); otherwise it returns the element [id] of
    [instance_l], whose [bufferId] is [id] and whose [pCircBufArchInstance]
    is [NULL] iff the registry entry is [kHostifInstIdInvalid]. *)
Theorem createInstance_result (id : nat) (instance_l : list tCircBufInstance) :
  (id < NR_OF_CIRC_BUFFERS)%nat ->
  length instance_l = NR_OF_CIRC_BUFFERS ->
  exists slot r l',
    hostifInstance !! id = Some slot /\
    circbuf_createInstance hostif_getInstance id instance_l = Some (r, l') /\
    (r = None <->
       slot <> kHostifInstIdInvalid /\ hostif_getInstance 0 = NULL) /\
    (r = None -> l' = instance_l) /\
    (r <> None ->
       r = Some id /\
       exists inst,
         l' !! id = Some inst /\
         bufferId inst = id /\
         (pCircBufArchInstance inst = NULL <-> slot = kHostifInstIdInvalid)).
Proof.
  intros Hid Hlen.
  destruct (lookup_lt_is_Some_2 hostifInstance id Hid) as [slot Hslot].
  assert (Hid' : (id < length instance_l)%nat) by (rewrite Hlen; exact Hid).
  destruct (lookup_lt_is_Some_2 instance_l id Hid') as [pInstance Hinst].
  exists slot. unfold circbuf_createInstance.
  rewrite Hinst, Hslot. cbn [mbind option_bind].
  destruct (decide (slot = kHostifInstIdInvalid)) as [Hinv | Hshared].
  - exists (Some id), (<[id := set_bufferId id (set_pCircBufArchInstance NULL pInstance)]> instance_l).
    split; [reflexivity |]. split; [reflexivity |].
    split; [| split].
    + split; [discriminate | intros [Hne _]; contradiction].
    + discriminate.
    + intros _. split; [reflexivity |].
      eexists. split; [apply list_lookup_insert_eq; exact Hid' |].
      split; [reflexivity |]. split; intros _; [exact Hinv | reflexivity].
  - destruct (Z.eqb_spec (hostif_getInstance 0) NULL) as [Hnull | Hhandle].
    + exists None, instance_l.
      split; [reflexivity |]. split; [reflexivity |].
      split; [| split].
      * split; [intros _; split; assumption | reflexivity].
      * reflexivity.
      * intros Hr. now elim Hr.
    + exists (Some id), (<[id := set_bufferId id (set_pCircBufArchInstance (hostif_getInstance 0) pInstance)]> instance_l).
      split; [reflexivity |]. split; [reflexivity |].
      split; [| split].
      * split; [discriminate | intros [_ Hnull]; contradiction].
      * discriminate.
      * intros _. split; [reflexivity |].
        eexists. split; [apply list_lookup_insert_eq; exact Hid' |].
        split; [reflexivity |]. cbn. split; intros Hc; contradiction.
Qed.

End Create.

Section Buffers.

Variable sizeof_tCircBufHeader : Z.
Variable hostif_getBuf : Z -> tHostifInstanceId -> tHostifReturn * Z * Z.
Variable malloc_choice : list (Z * Z) -> Z -> Z.
Variable remote : nat -> (Z -> Z) -> (Z -> Z).

Abbreviation allocBuffer :=
  (circbuf_allocBuffer sizeof_tCircBufHeader hostif_getBuf malloc_choice remote).
Abbreviation connectBuffer :=
  (circbuf_connectBuffer sizeof_tCircBufHeader hostif_getBuf).
Abbreviation sizeof_envelope := (sizeof_tCircBufHostiBuffer sizeof_tCircBufHeader).

Lemma hostif_ok_false (ret : tHostifReturn) :
  hostif_ok ret = false <-> ret <> kHostifSuccessful.
Proof. destruct ret; cbn; split; congruence. Qed.

(** What [circbuf_allocBuffer] does on a shared instance, by cases on the
    answer of [hostif_getBuf]. *)
Lemma allocBuffer_shared_cases
    (inst : tCircBufInstance) (s : Z) (w : world)
    (slot : tHostifInstanceId) (ret : tHostifReturn) (base cap : Z) :
  pCircBufArchInstance inst <> NULL ->
  hostifInstance !! bufferId inst = Some slot ->
  hostif_getBuf (pCircBufArchInstance inst) slot = (ret, base, cap) ->
  allocBuffer inst s w =
    if negb (hostif_ok ret) || Z.ltb cap s
    then Some (kCircBufNoResource, inst, s, w)
    else Some (kCircBufOk,
               mkInstance (pCircBufArchInstance inst) (bufferId inst)
                          (field_address base offsetof_circBufHeader)
                          (to_size_t (base + sizeof_envelope)),
               to_size_t (s - sizeof_envelope),
               HOSTIF_WR8 remote (field_address base offsetof_lock) 0
                          CIRCBUF_HOSTIF_UNLOCK w).
Proof.
  intros Harch Hslot Hbuf. unfold circbuf_allocBuffer.
  destruct (Z.eqb_spec (pCircBufArchInstance inst) NULL) as [E | _];
    [contradiction |].
  rewrite Hslot. cbn [mbind option_bind]. rewrite Hbuf.
  destruct (hostif_ok ret); cbn [negb orb]; [| reflexivity].
  destruct (Z.ltb cap s); reflexivity.
Qed.

(** C4.  On a shared instance [circbuf_allocBuffer] returns
    [kCircBufNoResource] exactly when [hostif_getBuf] fails or the
    requested size exceeds the capacity it reports; in that case the
    instance (header and payload pointers), the value of [*pSize_p] and the
    whole world (shared window with its lock byte, write log) are as they
    were before the call. *)
Theorem allocBuffer_shared_failure
    (inst : tCircBufInstance) (s : Z) (w : world)
    (slot : tHostifInstanceId) (ret : tHostifReturn) (base cap : Z) :
  pCircBufArchInstance inst <> NULL ->
  hostifInstance !! bufferId inst = Some slot ->
  hostif_getBuf (pCircBufArchInstance inst) slot = (ret, base, cap) ->
  exists err inst' s' w',
    allocBuffer inst s w = Some (err, inst', s', w') /\
    (err = kCircBufNoResource <-> ret <> kHostifSuccessful \/ cap < s) /\
    (err = kCircBufNoResource -> inst' = inst /\ s' = s /\ w' = w).
Proof.
  intros Harch Hslot Hbuf.
  rewrite (allocBuffer_shared_cases inst s w slot ret base cap Harch Hslot Hbuf).
  destruct (hostif_ok ret) eqn:Hret; cbn [negb orb].
  - destruct (Z.ltb_spec cap s) as [Hlt | Hge].
    + eexists _, _, _, _. split; [reflexivity |].
      split; [split; [intros _; now right | reflexivity] | now intros _].
    + eexists _, _, _, _. split; [reflexivity |].
      split; [split; [discriminate |] | discriminate].
      intros [Hfail | Hlt]; [| lia].
      apply hostif_ok_false in Hfail. congruence.
  - eexists _, _, _, _. split; [reflexivity |].
    split; [split; [intros _; left | reflexivity] | now intros _].
    now apply hostif_ok_false.
Qed.

(** X7.  The payload handed out by a successful shared
    [circbuf_allocBuffer] stays inside the window when the requested size
    is at least the size of the envelope. *)
Lemma allocBuffer_shared_success
    (inst : tCircBufInstance) (s : Z) (w : world)
    (slot : tHostifInstanceId) (base cap : Z) :
  pCircBufArchInstance inst <> NULL ->
  hostifInstance !! bufferId inst = Some slot ->
  hostif_getBuf (pCircBufArchInstance inst) slot = (kHostifSuccessful, base, cap) ->
  0 <= base -> base + cap < SIZE_MODULUS ->
  0 <= sizeof_tCircBufHeader ->
  sizeof_envelope <= s <= cap ->
  exists inst' s' w',
    allocBuffer inst s w = Some (kCircBufOk, inst', s', w') /\
    pCircBufHeader inst' = base + 4 /\
    pCircBuf inst' = base + sizeof_envelope /\
    s' = s - sizeof_envelope /\
    wr_log w' = (base, CIRCBUF_HOSTIF_UNLOCK) :: wr_log w /\
    mem w' base = CIRCBUF_HOSTIF_UNLOCK /\
    base <= pCircBuf inst' /\ pCircBuf inst' + s' <= base + cap.
Proof.
  intros Harch Hslot Hbuf Hb Hcap HH Hs.
  rewrite (allocBuffer_shared_cases inst s w slot _ base cap Harch Hslot Hbuf).
  cbn [hostif_ok negb orb].
  destruct (Z.ltb_spec cap s) as [Hlt | _]; [lia |].
  unfold sizeof_tCircBufHostiBuffer, offsetof_circBufHeader in *.
  eexists _, _, _. split; [reflexivity |].
  cbn [pCircBufHeader pCircBuf].
  unfold field_address, offsetof_circBufHeader.
  rewrite !to_size_t_small by (unfold SIZE_MODULUS in *; lia).
  cbn [HOSTIF_WR8 wr_log mem]. unfold field_address, offsetof_lock.
  rewrite !Z.add_0_r, !to_size_t_small by (unfold SIZE_MODULUS in *; lia).
  unfold store. rewrite Z.eqb_refl.
  repeat split; try reflexivity; lia.
Qed.

(** C6, as amended.  On a local-only instance, with a requested size [s]
    for which [s + sizeof(tCircBufHeader)] fits [size_t],
    [circbuf_allocBuffer] asks the allocator for [s + sizeof(tCircBufHeader)]
    bytes and stores the answer [p] in the header pointer; it returns
    [kCircBufNoResource] exactly when [p] is [NULL]; on success the payload
    pointer is [p + sizeof(tCircBufHeader)] and the block is recorded as
    allocated; [*pSize_p] keeps the requested size; and the call stores
    nothing to memory: the header is not initialised here. *)
Theorem allocBuffer_local
    (inst : tCircBufInstance) (s : Z) (w : world) (p : Z) :
  pCircBufArchInstance inst = NULL ->
  0 <= s -> 0 <= sizeof_tCircBufHeader ->
  s + sizeof_tCircBufHeader < SIZE_MODULUS ->
  malloc_choice (heap w) (s + sizeof_tCircBufHeader) = p ->
  0 <= p -> p + (s + sizeof_tCircBufHeader) < SIZE_MODULUS ->
  exists err inst' w',
    allocBuffer inst s w = Some (err, inst', s, w') /\
    (err = kCircBufNoResource <-> p = NULL) /\
    pCircBufHeader inst' = p /\
    (p <> NULL ->
       pCircBuf inst' = p + sizeof_tCircBufHeader /\
       heap w' = (p, s + sizeof_tCircBufHeader) :: heap w) /\
    (p = NULL -> pCircBuf inst' = pCircBuf inst /\ heap w' = heap w) /\
    pCircBufArchInstance inst' = NULL /\ bufferId inst' = bufferId inst /\
    mem w' = mem w /\ wr_log w' = wr_log w /\ clock w' = clock w.
Proof.
  intros Harch Hs HH Hfit Hp Hp0 Hblock.
  unfold circbuf_allocBuffer. rewrite Harch. cbn [Z.eqb NULL].
  rewrite (to_size_t_small (s + sizeof_tCircBufHeader)) by lia.
  unfold OPLK_MALLOC. rewrite Hp. cbn [pCircBufHeader set_pCircBufHeader].
  destruct (Z.eqb_spec p NULL) as [Hnull | Hblk].
  - eexists _, _, _. split; [reflexivity |].
    cbn. repeat split; try assumption; try reflexivity; try contradiction;
      intros _; assumption.
  - eexists _, _, _. split; [reflexivity |].
    cbn [pCircBufHeader pCircBuf set_pCircBuf set_pCircBufHeader
         pCircBufArchInstance bufferId set_heap mem wr_log clock heap].
    rewrite to_size_t_small by lia.
    repeat split; try assumption; try reflexivity; try discriminate;
      try contradiction.
Qed.

(** What [circbuf_connectBuffer] does on a shared instance, by cases on
    the answer of [hostif_getBuf]. *)
Lemma connectBuffer_shared_cases
    (inst : tCircBufInstance) (w : world)
    (slot : tHostifInstanceId) (ret : tHostifReturn) (base cap : Z) :
  pCircBufArchInstance inst <> NULL ->
  hostifInstance !! bufferId inst = Some slot ->
  hostif_getBuf (pCircBufArchInstance inst) slot = (ret, base, cap) ->
  connectBuffer inst w =
    if negb (hostif_ok ret)
    then Some (kCircBufNoResource, inst, w)
    else Some (kCircBufOk,
               mkInstance (pCircBufArchInstance inst) (bufferId inst)
                          (field_address base offsetof_circBufHeader)
                          (to_size_t (base + sizeof_envelope)),
               w).
Proof.
  intros Harch Hslot Hbuf. unfold circbuf_connectBuffer.
  destruct (Z.eqb_spec (pCircBufArchInstance inst) NULL) as [E | _];
    [contradiction |].
  cbn [negb]. rewrite Hslot. cbn [mbind option_bind]. rewrite Hbuf.
  destruct (hostif_ok ret); reflexivity.
Qed.

(** C8.  [circbuf_connectBuffer] leaves the world as it is: it stores
    nothing to the shared window, so neither the lock byte nor a header
    field changes.  On a local-only instance it changes nothing and returns
    [kCircBufOk]; on a shared instance it returns [kCircBufNoResource]
    exactly when [hostif_getBuf] fails, leaving the instance as it was, and
    otherwise sets the header and payload pointers from the base that
    [hostif_getBuf] reported. *)
Theorem connectBuffer_frame (inst : tCircBufInstance) (w : world) :
  (pCircBufArchInstance inst = NULL ->
     connectBuffer inst w = Some (kCircBufOk, inst, w)) /\
  (pCircBufArchInstance inst <> NULL ->
     forall slot ret base cap,
       hostifInstance !! bufferId inst = Some slot ->
       hostif_getBuf (pCircBufArchInstance inst) slot = (ret, base, cap) ->
       exists err inst',
         connectBuffer inst w = Some (err, inst', w) /\
         (err = kCircBufNoResource <-> ret <> kHostifSuccessful) /\
         (err = kCircBufNoResource -> inst' = inst) /\
         (err = kCircBufOk ->
            inst' = mkInstance (pCircBufArchInstance inst) (bufferId inst)
                      (field_address base offsetof_circBufHeader)
                      (to_size_t (base + sizeof_envelope)))).
Proof.
  split.
  - intros Harch. unfold circbuf_connectBuffer. now rewrite Harch.
  - intros Harch slot ret base cap Hslot Hbuf.
    rewrite (connectBuffer_shared_cases inst w slot ret base cap
               Harch Hslot Hbuf).
    destruct ret as [| code]; cbn [hostif_ok negb].
    + eexists _, _. split; [reflexivity |].
      split; [split; [discriminate | intros Hc; now elim Hc] |].
      split; [discriminate | reflexivity].
    + eexists _, _. split; [reflexivity |].
      split; [split; [discriminate | reflexivity] |].
      split; [reflexivity | discriminate].
Qed.

Lemma block_gone (p : Z) (h : list (Z * Z)) :
  existsb (is_block p) (List.filter (fun b => negb (is_block p b)) h) = false.
Proof.
  induction h as [| b h IH]; [reflexivity |].
  cbn [List.filter]. destruct (is_block p b) eqn:Hb; cbn [negb].
  - exact IH.
  - cbn [existsb]. now rewrite Hb, IH.
Qed.

(** C10, as amended.  On a local-only instance [circbuf_freeBuffer] hands
    the stored header pointer to [OPLK_FREE] and leaves the instance,
    pointer included, as it was; when that pointer is not [NULL], a second
    call hands the same, now released, block to [OPLK_FREE] again, which is
    undefined.  On a shared instance [circbuf_freeBuffer] changes nothing
    and releases nothing. *)
Theorem freeBuffer_keeps_pointer (inst : tCircBufInstance) (w : world) :
  (pCircBufArchInstance inst = NULL ->
     forall inst1 w1,
       circbuf_freeBuffer inst w = Some (inst1, w1) ->
       inst1 = inst /\
       OPLK_FREE (pCircBufHeader inst) w = Some w1 /\
       (pCircBufHeader inst <> NULL -> circbuf_freeBuffer inst1 w1 = None)) /\
  (pCircBufArchInstance inst <> NULL ->
     circbuf_freeBuffer inst w = Some (inst, w)).
Proof.
  unfold circbuf_freeBuffer. split.
  - intros Harch inst1 w1. rewrite Harch. cbn [Z.eqb NULL].
    destruct (OPLK_FREE (pCircBufHeader inst) w) as [w'|] eqn:Hfree;
      cbn [mbind option_bind]; [| discriminate].
    intros [= <- <-]. split; [reflexivity |]. split; [reflexivity |].
    intros Hp. rewrite Harch. cbn [Z.eqb NULL].
    unfold OPLK_FREE in Hfree |- *.
    destruct (Z.eqb_spec (pCircBufHeader inst) NULL) as [E | _];
      [contradiction |].
    destruct (existsb _ (heap w)); [| discriminate].
    injection Hfree as <-. cbn [heap set_heap]. now rewrite block_gone.
  - intros Harch.
    destruct (Z.eqb_spec (pCircBufArchInstance inst) NULL) as [E | _];
      [contradiction | reflexivity].
Qed.

Variable CONFIG_HOSTIF_PCP : bool.

Abbreviation LOCK := (CIRCBUF_HOSTIF_LOCK CONFIG_HOSTIF_PCP).
Abbreviation lock := (circbuf_lock CONFIG_HOSTIF_PCP remote).
Abbreviation unlock := (circbuf_unlock remote).

(** The address of the lock byte that [circbuf_lock] and [circbuf_unlock]
    access for an envelope at [pHostifBuf]. *)
Abbreviation lock_address pHostifBuf :=
  (field_address pHostifBuf offsetof_lock + 0).

Lemma to_UINT8_unlock : to_UINT8 CIRCBUF_HOSTIF_UNLOCK = CIRCBUF_HOSTIF_UNLOCK.
Proof. reflexivity. Qed.

(** A pass of the loop adds to the log at most one write, of the own lock
    identity, at the lock byte. *)
Lemma lock_pass_log (pHostifBuf : Z) (w : world) :
  let '(_, w1, _) := lock_pass CONFIG_HOSTIF_PCP remote pHostifBuf w in
  wr_log w1 = wr_log w \/
  wr_log w1 = (lock_address pHostifBuf, LOCK) :: wr_log w.
Proof.
  unfold lock_pass, HOSTIF_RD8.
  destruct (Z.eqb _ CIRCBUF_HOSTIF_UNLOCK).
  - right. cbn [HOSTIF_WR8 wr_log]. now rewrite to_UINT8_lock.
  - left. reflexivity.
Qed.

(** However long the loop spins, all it adds to the log are writes of the
    own lock identity at the lock byte. *)
Lemma lock_loop_log (fuel : nat) (pHostifBuf : Z) (w : world) :
  exists new,
    wr_log (fst (lock_loop CONFIG_HOSTIF_PCP remote fuel pHostifBuf w))
      = new ++ wr_log w /\
    Forall (fun e => e = (lock_address pHostifBuf, LOCK)) new.
Proof.
  revert w. induction fuel as [| fuel IH]; intros w.
  - exists []. split; [reflexivity | constructor].
  - cbn [lock_loop].
    pose proof (lock_pass_log pHostifBuf w) as Hpass.
    destruct (lock_pass CONFIG_HOSTIF_PCP remote pHostifBuf w)
      as [[lockValue w1] again].
    destruct again.
    + destruct (IH w1) as (new & Hlog & Hall).
      destruct Hpass as [Hsame | Hone].
      * exists new. now rewrite Hlog, Hsame.
      * exists (new ++ [(lock_address pHostifBuf, LOCK)]). split.
        -- rewrite Hlog, Hone, <- app_assoc. reflexivity.
        -- apply Forall_app. split; [exact Hall | now repeat constructor].
    + cbn [fst]. destruct Hpass as [Hsame | Hone].
      * exists []. split; [exact Hsame | constructor].
      * exists [(lock_address pHostifBuf, LOCK)].
        split; [exact Hone | now repeat constructor].
Qed.

Lemma own_value_unlock :
  own_value CONFIG_HOSTIF_PCP CIRCBUF_HOSTIF_UNLOCK.
Proof. split; [now left | now destruct CONFIG_HOSTIF_PCP]. Qed.

Lemma own_value_lock : own_value CONFIG_HOSTIF_PCP LOCK.
Proof. split; [now right | now destruct CONFIG_HOSTIF_PCP]. Qed.

Lemma writes_own_same (w w' : world) :
  wr_log w' = wr_log w -> writes_own CONFIG_HOSTIF_PCP w w'.
Proof. intros H. exists []. split; [exact H | constructor]. Qed.

(** C3.  Every write that [circbuf_allocBuffer], [circbuf_lock] (however
    long it spins and whatever the other processor does) and
    [circbuf_unlock] add to the log stores [UNLOCK] ([0x00]) or the own lock
    identity ([0x01] when built with [CONFIG_HOSTIF_PCP == TRUE], [0x02]
    otherwise), never the identity of the other side;
    [circbuf_connectBuffer] and [circbuf_freeBuffer] write nothing. *)
Theorem lock_byte_writes :
  (CIRCBUF_HOSTIF_UNLOCK = 0 /\
   CIRCBUF_HOSTIF_LOCK true = 1 /\ CIRCBUF_HOSTIF_LOCK false = 2) /\
  (forall inst s w,
     match allocBuffer inst s w with
     | Some (_, _, _, w') => writes_own CONFIG_HOSTIF_PCP w w'
     | None => True
     end) /\
  (forall fuel inst w,
     writes_own CONFIG_HOSTIF_PCP w (fst (lock fuel inst w))) /\
  (forall inst w, writes_own CONFIG_HOSTIF_PCP w (unlock inst w)) /\
  (forall inst w,
     match connectBuffer inst w with
     | Some (_, _, w') => wr_log w' = wr_log w
     | None => True
     end) /\
  (forall inst w,
     match circbuf_freeBuffer inst w with
     | Some (_, w') => wr_log w' = wr_log w
     | None => True
     end).
Proof.
  split; [repeat split |]. split; [| split; [| split; [| split]]].
  - (* circbuf_allocBuffer *)
    intros inst s w. unfold circbuf_allocBuffer.
    destruct (Z.eqb (pCircBufArchInstance inst) NULL).
    + unfold OPLK_MALLOC.
      destruct (Z.eqb (malloc_choice _ _) NULL) eqn:Hp;
        cbn [pCircBufHeader set_pCircBufHeader]; rewrite Hp;
        now apply writes_own_same.
    + destruct (hostifInstance !! bufferId inst) as [slot |];
        cbn [mbind option_bind]; [| exact I].
      destruct (hostif_getBuf _ slot) as [[ret base] cap].
      destruct (hostif_ok ret); cbn [negb]; [| now apply writes_own_same].
      destruct (Z.ltb cap s); [now apply writes_own_same |].
      exists [(field_address base offsetof_lock + 0, CIRCBUF_HOSTIF_UNLOCK)].
      split; [reflexivity |].
      constructor; [apply own_value_unlock | constructor].
  - (* circbuf_lock *)
    intros fuel inst w. unfold circbuf_lock.
    destruct (Z.eqb (pCircBufArchInstance inst) NULL); cbn [negb fst];
      [now apply writes_own_same |].
    destruct (lock_loop_log fuel
                (GET_QUEUE_BUF_BASE (pCircBufHeader inst))
                (target_enableGlobalInterrupt false w))
      as (new & Hlog & Hall).
    destruct (lock_loop _ _ _ _ _) as [w1 [v |]]; cbn [fst] in *;
      (exists new; split; [exact Hlog |];
       eapply Forall_impl; [exact Hall |];
       intros e ->; apply own_value_lock).
  - (* circbuf_unlock *)
    intros inst w. unfold circbuf_unlock.
    destruct (Z.eqb (pCircBufArchInstance inst) NULL); cbn [negb];
      [apply writes_own_same, gate_wr_log |].
    eexists [_]. split; [rewrite gate_wr_log; reflexivity |].
    constructor; [apply own_value_unlock | constructor].
  - (* circbuf_connectBuffer *)
    intros inst w. unfold circbuf_connectBuffer.
    destruct (Z.eqb (pCircBufArchInstance inst) NULL); cbn [negb];
      [reflexivity |].
    destruct (hostifInstance !! bufferId inst) as [slot |];
      cbn [mbind option_bind]; [| exact I].
    destruct (hostif_getBuf _ slot) as [[ret base] cap].
    destruct (hostif_ok ret); reflexivity.
  - (* circbuf_freeBuffer *)
    intros inst w. unfold circbuf_freeBuffer.
    destruct (Z.eqb (pCircBufArchInstance inst) NULL); [| reflexivity].
    unfold OPLK_FREE.
    destruct (Z.eqb (pCircBufHeader inst) NULL); [reflexivity |].
    destruct (existsb _ _); reflexivity.
Qed.

(** C2.  On a shared instance whose lock byte holds [UNLOCK], and with the
    other processor not writing that byte, [circbuf_lock] returns within two
    passes of its loop: the first pass reads [UNLOCK] and writes the own
    identity, [continue] leads through the loop condition into the second
    pass, whose read finds the own identity and ends the loop.  On return
    the last value read is the own lock identity, the lock byte holds it,
    three accesses were issued (read, write, confirming read), and
    interrupts are off. *)
Theorem lock_uncontended (fuel : nat) (inst : tCircBufInstance) (w : world) :
  let a := lock_address (GET_QUEUE_BUF_BASE (pCircBufHeader inst)) in
  pCircBufArchInstance inst <> NULL ->
  (forall t m, remote t m a = m a) ->
  mem w a = CIRCBUF_HOSTIF_UNLOCK ->
  (2 <= fuel)%nat ->
  exists w',
    lock fuel inst w = (w', Returned (Some LOCK)) /\
    mem w' a = LOCK /\
    wr_log w' = (a, LOCK) :: wr_log w /\
    clock w' = S (S (S (clock w))) /\
    irq w' = false.
Proof.
  intros a Harch Hquiet Hmem Hfuel.
  destruct fuel as [| [| fuel]]; [lia | lia |].
  unfold circbuf_lock.
  destruct (Z.eqb_spec (pCircBufArchInstance inst) NULL) as [E | _];
    [contradiction |].
  cbn [negb lock_loop].
  (* first pass: reads UNLOCK, writes the own identity, goes on *)
  unfold lock_pass at 1. unfold HOSTIF_RD8 at 1.
  cbn [target_enableGlobalInterrupt set_gate mem clock wr_log heap irq irq_saved].
  fold a. rewrite Hquiet, Hmem, to_UINT8_unlock.
  rewrite Z.eqb_refl, (Z.eqb_sym CIRCBUF_HOSTIF_UNLOCK), lock_is_not_unlock.
  cbn [negb].
  (* second pass: reads the own identity back, leaves the loop *)
  unfold lock_pass, HOSTIF_RD8, HOSTIF_WR8.
  cbn [mem clock wr_log heap irq irq_saved]. fold a.
  rewrite Hquiet, !store_same, !to_UINT8_lock, lock_is_not_unlock, Z.eqb_refl.
  cbn [negb].
  eexists. split; [reflexivity |].
  cbn [mem wr_log clock irq]. rewrite Hquiet, store_same.
  repeat split.
Qed.

(** The three ways through a pass, by the value read. *)
Lemma pass_reads_unlock (b : Z) (w : world) :
  to_UINT8 (remote (clock w) (mem w) (lock_address b)) = CIRCBUF_HOSTIF_UNLOCK ->
  lock_pass CONFIG_HOSTIF_PCP remote b w =
    (CIRCBUF_HOSTIF_UNLOCK,
     mkWorld (store (lock_address b) LOCK
                (remote (S (clock w)) (remote (clock w) (mem w))))
             ((lock_address b, LOCK) :: wr_log w)
             (S (S (clock w))) (heap w) (irq w) (irq_saved w),
     true).
Proof.
  intros Hv. unfold lock_pass, HOSTIF_RD8. rewrite Hv.
  rewrite Z.eqb_refl, (Z.eqb_sym CIRCBUF_HOSTIF_UNLOCK), lock_is_not_unlock.
  unfold HOSTIF_WR8. cbn [mem clock wr_log heap irq negb].
  now rewrite to_UINT8_lock.
Qed.

Lemma pass_reads_own (b : Z) (w : world) :
  to_UINT8 (remote (clock w) (mem w) (lock_address b)) = LOCK ->
  lock_pass CONFIG_HOSTIF_PCP remote b w =
    (LOCK,
     mkWorld (remote (clock w) (mem w)) (wr_log w) (S (clock w))
             (heap w) (irq w) (irq_saved w),
     false).
Proof.
  intros Hv. unfold lock_pass, HOSTIF_RD8. rewrite Hv.
  now rewrite lock_is_not_unlock, Z.eqb_refl.
Qed.

Lemma pass_reads_other (b : Z) (w : world) :
  let v := to_UINT8 (remote (clock w) (mem w) (lock_address b)) in
  v <> CIRCBUF_HOSTIF_UNLOCK -> v <> LOCK ->
  lock_pass CONFIG_HOSTIF_PCP remote b w =
    (v,
     mkWorld (remote (clock w) (mem w)) (wr_log w) (S (clock w))
             (heap w) (irq w) (irq_saved w),
     true).
Proof.
  intros v Hunlock Hown. unfold lock_pass, HOSTIF_RD8. fold v.
  destruct (Z.eqb_spec v CIRCBUF_HOSTIF_UNLOCK) as [E | _]; [contradiction |].
  destruct (Z.eqb_spec v LOCK) as [E | _]; [contradiction | reflexivity].
Qed.

(** What one pass granted to [circbuf_lock] does on a shared instance whose
    envelope is at [b], and where all its writes go. *)
Lemma lock_acts_on_base (inst : tCircBufInstance) (b : Z) :
  pCircBufArchInstance inst <> NULL ->
  GET_QUEUE_BUF_BASE (pCircBufHeader inst) = b ->
  lock_address b = b ->
  lock_acts_on_byte CONFIG_HOSTIF_PCP remote inst b.
Proof.
  intros Harch Hbase Hlock w. cbv zeta.
  assert (Hrun : forall fuel,
            lock fuel inst w
            = match lock_loop CONFIG_HOSTIF_PCP remote fuel b
                      (target_enableGlobalInterrupt false w) with
              | (w1, Some v) => (w1, Returned (Some v))
              | (w1, None) => (w1, Spinning)
              end).
  { intros fuel. unfold circbuf_lock.
    destruct (Z.eqb_spec (pCircBufArchInstance inst) NULL) as [E | _];
      [contradiction |].
    cbn [negb]. now rewrite Hbase. }
  split; [| split; [| split]].
  - intros Hv. rewrite Hrun. cbn [lock_loop].
    rewrite pass_reads_own
      by (rewrite Hlock, gate_clock, gate_mem; exact Hv).
    now rewrite gate_clock, gate_mem, gate_wr_log, gate_heap.
  - intros Hv. rewrite Hrun. cbn [lock_loop].
    rewrite pass_reads_unlock
      by (rewrite Hlock, gate_clock, gate_mem; exact Hv).
    cbn [lock_loop].
    now rewrite Hlock, gate_clock, gate_mem, gate_wr_log, gate_heap.
  - intros Hu Ho. rewrite Hrun. cbn [lock_loop].
    rewrite pass_reads_other
      by (rewrite Hlock, gate_clock, gate_mem; assumption).
    cbn [lock_loop].
    now rewrite gate_clock, gate_mem, gate_wr_log, gate_heap.
  - intros fuel. rewrite Hrun.
    destruct (lock_loop_log fuel b (target_enableGlobalInterrupt false w))
      as (new & Hlog & Hall).
    rewrite Hlock, gate_wr_log in *.
    exists new. split; [| exact Hall].
    now destruct (lock_loop _ _ _ _ _) as [w1 [v |]].
Qed.

(** C9.  [GET_QUEUE_BUF_BASE] undoes the step from an envelope base [b] to
    the header pointer that [circbuf_allocBuffer] and
    [circbuf_connectBuffer] store, [b] plus the offset of [circBufHeader].
    Hence, for the instance a successful shared [circbuf_allocBuffer] or
    [circbuf_connectBuffer] leaves, [circbuf_lock] and [circbuf_unlock]
    address the byte at [b], the byte at offset 0 to which
    [circbuf_allocBuffer] wrote [UNLOCK]: [circbuf_lock] runs its loop on
    the envelope at [b]; the value a pass reads is the byte at [b], so that
    the pass ends the loop, writes, or spins by that byte; every write of
    [circbuf_lock] stores at [b]; and [circbuf_unlock] writes the byte at
    [b]. *)
Theorem header_envelope_round_trip (b : Z) :
  0 <= b < SIZE_MODULUS ->
  GET_QUEUE_BUF_BASE (field_address b offsetof_circBufHeader) = b /\
  lock_address b = b /\
  forall inst slot cap,
    pCircBufArchInstance inst <> NULL ->
    hostifInstance !! bufferId inst = Some slot ->
    hostif_getBuf (pCircBufArchInstance inst) slot
      = (kHostifSuccessful, b, cap) ->
    (forall s w inst' s' w',
       allocBuffer inst s w = Some (kCircBufOk, inst', s', w') ->
       wr_log w' = (b, CIRCBUF_HOSTIF_UNLOCK) :: wr_log w /\
       GET_QUEUE_BUF_BASE (pCircBufHeader inst') = b /\
       (forall fuel w2,
          fst (lock fuel inst' w2)
          = fst (lock_loop CONFIG_HOSTIF_PCP remote fuel b
                   (target_enableGlobalInterrupt false w2))) /\
       (forall w2,
          wr_log (unlock inst' w2)
          = (b, CIRCBUF_HOSTIF_UNLOCK) :: wr_log w2) /\
       lock_acts_on_byte CONFIG_HOSTIF_PCP remote inst' b /\
       (forall w2, mem (unlock inst' w2) b = CIRCBUF_HOSTIF_UNLOCK)) /\
    (forall w inst' w',
       connectBuffer inst w = Some (kCircBufOk, inst', w') ->
       GET_QUEUE_BUF_BASE (pCircBufHeader inst') = b /\
       lock_acts_on_byte CONFIG_HOSTIF_PCP remote inst' b /\
       (forall w2,
          wr_log (unlock inst' w2)
          = (b, CIRCBUF_HOSTIF_UNLOCK) :: wr_log w2) /\
       (forall w2, mem (unlock inst' w2) b = CIRCBUF_HOSTIF_UNLOCK)).
Proof.
  intros Hb.
  pose proof (GET_QUEUE_BUF_BASE_header b Hb) as Hbase.
  pose proof (field_address_lock b Hb) as Hlock.
  split; [exact Hbase |]. split; [exact Hlock |].
  intros inst slot cap Harch Hslot Hbuf.
  assert (Hunlock : forall inst',
            pCircBufArchInstance inst' <> NULL ->
            GET_QUEUE_BUF_BASE (pCircBufHeader inst') = b ->
            forall w2,
              wr_log (unlock inst' w2)
              = (b, CIRCBUF_HOSTIF_UNLOCK) :: wr_log w2 /\
              mem (unlock inst' w2) b = CIRCBUF_HOSTIF_UNLOCK).
  { intros inst' Harch' Hbase' w2. unfold circbuf_unlock.
    destruct (Z.eqb_spec (pCircBufArchInstance inst') NULL) as [E | _];
      [contradiction |].
    cbn [negb]. rewrite gate_wr_log, gate_mem, Hbase'.
    cbn [HOSTIF_WR8 wr_log mem]. rewrite Hlock, to_UINT8_unlock, store_same.
    split; reflexivity. }
  split.
  - intros s w inst' s' w'.
    rewrite (allocBuffer_shared_cases inst s w slot _ b cap Harch Hslot Hbuf).
    cbn [hostif_ok negb orb].
    destruct (Z.ltb cap s); [discriminate |].
    intros [= <- <- <-].
    set (inst' := mkInstance _ _ _ _).
    assert (Harch' : pCircBufArchInstance inst' <> NULL) by exact Harch.
    assert (Hbase' : GET_QUEUE_BUF_BASE (pCircBufHeader inst') = b)
      by exact Hbase.
    split; [| split; [exact Hbase' | split; [| split; [| split]]]].
    + cbn [HOSTIF_WR8 wr_log]. now rewrite Hlock, to_UINT8_unlock.
    + intros fuel w2. unfold circbuf_lock.
      destruct (Z.eqb_spec (pCircBufArchInstance inst') NULL) as [E | _];
        [contradiction |].
      cbn [negb]. rewrite Hbase'.
      now destruct (lock_loop _ _ _ _ _) as [w1 [v |]].
    + intros w2. apply (Hunlock inst' Harch' Hbase').
    + now apply lock_acts_on_base.
    + intros w2. apply (Hunlock inst' Harch' Hbase').
  - intros w inst' w'.
    rewrite (connectBuffer_shared_cases inst w slot _ b cap Harch Hslot Hbuf).
    cbn [hostif_ok negb]. intros [= <- <-].
    set (inst' := mkInstance _ _ _ _).
    assert (Harch' : pCircBufArchInstance inst' <> NULL) by exact Harch.
    assert (Hbase' : GET_QUEUE_BUF_BASE (pCircBufHeader inst') = b)
      by exact Hbase.
    split; [exact Hbase' |]. split; [now apply lock_acts_on_base |].
    split; intros w2; apply (Hunlock inst' Harch' Hbase').
Qed.

End Buffers.

(* ===================================================================== *)
(** ** The two-processor machine and the code *)
(* ===================================================================== *)

Section Simulation.

Variable c : TwoCpu.cpu_id.
Variable pHostifBuf : Z.

Abbreviation cfg := (TwoCpu.config_of c).

(** Entering [circbuf_lock] is the step from [Outside]. *)
Lemma step_enter (m : Z -> Z) (p : TwoCpu.cpu) :
  TwoCpu.at_pc p = TwoCpu.Outside ->
  TwoCpu.cpu_step c pHostifBuf m p
  = (TwoCpu.mkCpu TwoCpu.AtRead (TwoCpu.lockValue p)
       (target_enableGlobalInterrupt false (TwoCpu.with_mem m (TwoCpu.own p))),
     m).
Proof. intros H. unfold TwoCpu.cpu_step. now rewrite H. Qed.

(** One pass of the loop of [circbuf_lock] is one step of the machine from
    [AtRead] when the value read is not [UNLOCK], and two steps (the read
    and the write) when it is; the machine is then back at the head of the
    loop or past it as the loop condition says. *)
Lemma steps_pass (m : Z -> Z) (p : TwoCpu.cpu) :
  TwoCpu.at_pc p = TwoCpu.AtRead ->
  let '(v, w1, again) :=
    lock_pass cfg quiet pHostifBuf (TwoCpu.with_mem m (TwoCpu.own p)) in
  exists n,
    (n = 1 \/ n = 2)%nat /\
    TwoCpu.alone c pHostifBuf n p m
    = (TwoCpu.mkCpu (if again then TwoCpu.AtRead else TwoCpu.Locked) v w1,
       mem w1).
Proof.
  intros Hpc. unfold lock_pass, HOSTIF_RD8, HOSTIF_WR8, quiet.
  cbn [TwoCpu.with_mem mem clock wr_log heap irq irq_saved].
  destruct (Z.eqb (to_UINT8 (m (field_address pHostifBuf offsetof_lock + 0)))
                  CIRCBUF_HOSTIF_UNLOCK) eqn:Hv.
  - exists 2%nat. split; [now right |].
    cbn [TwoCpu.alone].
    unfold TwoCpu.cpu_step at 1, HOSTIF_RD8, quiet. rewrite Hpc.
    cbn [TwoCpu.with_mem mem clock wr_log heap irq irq_saved]. rewrite Hv.
    unfold TwoCpu.cpu_step, HOSTIF_WR8, quiet, TwoCpu.own_lock.
    cbn [TwoCpu.at_pc TwoCpu.own TwoCpu.lockValue TwoCpu.with_mem
         mem clock wr_log heap irq irq_saved].
    now destruct (Z.eqb _ (CIRCBUF_HOSTIF_LOCK cfg)).
  - exists 1%nat. split; [now left |].
    cbn [TwoCpu.alone].
    unfold TwoCpu.cpu_step, HOSTIF_RD8, quiet, TwoCpu.own_lock. rewrite Hpc.
    cbn [TwoCpu.with_mem mem clock wr_log heap irq irq_saved]. rewrite Hv.
    now destruct (Z.eqb _ (CIRCBUF_HOSTIF_LOCK cfg)).
Qed.

(** The step from [Locked] is [circbuf_unlock] on a shared instance whose
    envelope is at [pHostifBuf]. *)
Lemma step_unlock (m : Z -> Z) (p : TwoCpu.cpu) (inst : tCircBufInstance) :
  TwoCpu.at_pc p = TwoCpu.Locked ->
  pCircBufArchInstance inst <> NULL ->
  GET_QUEUE_BUF_BASE (pCircBufHeader inst) = pHostifBuf ->
  let w1 := circbuf_unlock quiet inst (TwoCpu.with_mem m (TwoCpu.own p)) in
  TwoCpu.cpu_step c pHostifBuf m p
  = (TwoCpu.mkCpu TwoCpu.Outside (TwoCpu.lockValue p) w1, mem w1).
Proof.
  intros Hpc Harch Hbase. unfold TwoCpu.cpu_step, circbuf_unlock.
  rewrite Hpc, Hbase.
  destruct (Z.eqb_spec (pCircBufArchInstance inst) NULL) as [E | _];
    [contradiction |].
  cbn [negb]. now rewrite gate_mem.
Qed.

End Simulation.

(** A processor writes only [UNLOCK] or its own identity, whatever the
    schedule. *)
Lemma cpu_step_writes (c : TwoCpu.cpu_id) (b : Z) (m : Z -> Z) (p : TwoCpu.cpu) :
  writes_own (TwoCpu.config_of c)
    (TwoCpu.with_mem m (TwoCpu.own p))
    (TwoCpu.own (fst (TwoCpu.cpu_step c b m p))).
Proof.
  unfold TwoCpu.cpu_step.
  destruct (TwoCpu.at_pc p).
  - apply writes_own_same. cbn [fst TwoCpu.own]. apply gate_wr_log.
  - unfold HOSTIF_RD8.
    repeat (destruct (Z.eqb _ _); cbn [negb]); now apply writes_own_same.
  - eexists [_]. unfold TwoCpu.own_lock.
    destruct (Z.eqb _ _); cbn [negb fst TwoCpu.own HOSTIF_WR8 wr_log];
      (split; [reflexivity |]);
      (constructor; [cbn [snd]; rewrite to_UINT8_lock; apply own_value_lock
                    | constructor]).
  - eexists [_]. cbn [fst TwoCpu.own]. rewrite gate_wr_log.
    split; [reflexivity |].
    constructor; [apply own_value_unlock | constructor].
Qed.

(* ===================================================================== *)
(** ** The lock under contention *)
(* ===================================================================== *)

(** C1.  The lock does not exclude: on a buffer whose lock byte holds
    [UNLOCK], the schedule [race] lets both processors read [UNLOCK] before
    either writes; each then writes its own identity and reads it back, the
    PCP before the host overwrites the byte.  Both are then past
    [circbuf_lock], each having last read its own identity, and neither has
    run [circbuf_unlock] (neither log holds a write of [UNLOCK]). *)
Theorem lock_race_both_inside :
  let s := TwoCpu.run sample_base TwoCpu.race
             (TwoCpu.start (fun _ => CIRCBUF_HOSTIF_UNLOCK)) in
  TwoCpu.holds TwoCpu.PCP s = true /\
  TwoCpu.holds TwoCpu.HOST s = true /\
  TwoCpu.lockValue (TwoCpu.pcp s) = TwoCpu.own_lock TwoCpu.PCP /\
  TwoCpu.lockValue (TwoCpu.host s) = TwoCpu.own_lock TwoCpu.HOST /\
  wr_log (TwoCpu.own (TwoCpu.pcp s)) = [(sample_base, 1)] /\
  wr_log (TwoCpu.own (TwoCpu.host s)) = [(sample_base, 2)] /\
  TwoCpu.shared s sample_base = 2.
Proof. vm_compute. repeat split. Qed.

(** The course of the lock depends on the memory through the lock byte
    only: a step of the machine is a step of its view. *)
Lemma view_of_step (b : Z) (c : TwoCpu.cpu_id) (s : TwoCpu.system) :
  TwoCpu.view b (TwoCpu.step b c s) = TwoCpu.view_step c (TwoCpu.view b s).
Proof.
  destruct s as [m [pc1 v1 w1] [pc2 v2 w2]].
  unfold TwoCpu.view, TwoCpu.view_step, TwoCpu.view_cpu_step, TwoCpu.step,
    TwoCpu.cpu_step, HOSTIF_RD8, HOSTIF_WR8, quiet, TwoCpu.own_lock.
  cbn [TwoCpu.at_pc TwoCpu.own TwoCpu.lockValue TwoCpu.pcp TwoCpu.host
       TwoCpu.shared TwoCpu.with_mem TwoCpu.v_pcp TwoCpu.v_host TwoCpu.v_lock
       fst snd mem clock wr_log heap irq irq_saved].
  destruct c; [destruct pc1 | destruct pc2];
    repeat (destruct (Z.eqb _ _); cbn [negb]);
    cbn [TwoCpu.at_pc TwoCpu.own TwoCpu.lockValue TwoCpu.pcp TwoCpu.host
         TwoCpu.shared mem];
    rewrite ?store_same, ?to_UINT8_lock; reflexivity.
Qed.

Lemma view_of_run (b : Z) (schedule : list TwoCpu.cpu_id) (s : TwoCpu.system) :
  TwoCpu.view b (TwoCpu.run b schedule s)
  = TwoCpu.view_run schedule (TwoCpu.view b s).
Proof.
  revert s. induction schedule as [| c rest IH]; intros s; [reflexivity |].
  cbn [TwoCpu.run TwoCpu.view_run fold_left].
  rewrite IH, view_of_step. reflexivity.
Qed.

Lemma view_of_holds (b : Z) (c : TwoCpu.cpu_id) (s : TwoCpu.system) :
  TwoCpu.holds c s = TwoCpu.view_holds c (TwoCpu.view b s).
Proof. now destruct c. Qed.

(** Outside the race the lock does its work: a processor that comes to
    the head of the loop while the byte holds a value other than [UNLOCK]
    and its own identity stays there and leaves the byte alone. *)
Lemma waits_while_other_holds (c : TwoCpu.cpu_id) (p : TwoCpu.pc * Z) (l : Z) :
  fst p = TwoCpu.Outside \/ fst p = TwoCpu.AtRead ->
  l <> CIRCBUF_HOSTIF_UNLOCK -> l <> TwoCpu.own_lock c ->
  fst (fst (TwoCpu.view_cpu_step c p l)) = TwoCpu.AtRead /\
  snd (TwoCpu.view_cpu_step c p l) = l.
Proof.
  intros [Hpc | Hpc] Hunlock Hown; unfold TwoCpu.view_cpu_step; rewrite Hpc.
  - split; reflexivity.
  - destruct (Z.eqb_spec l CIRCBUF_HOSTIF_UNLOCK); [contradiction |].
    destruct (Z.eqb_spec l (TwoCpu.own_lock c)); [contradiction |].
    split; reflexivity.
Qed.

(** X19.  The same race on every envelope whose lock byte holds
    [UNLOCK]. *)
Lemma lock_race_anywhere (b : Z) (m : Z -> Z) :
  to_UINT8 (m (field_address b offsetof_lock + 0)) = CIRCBUF_HOSTIF_UNLOCK ->
  let s := TwoCpu.run b TwoCpu.race (TwoCpu.start m) in
  TwoCpu.holds TwoCpu.PCP s = true /\ TwoCpu.holds TwoCpu.HOST s = true.
Proof.
  intros Hm s. rewrite !(view_of_holds b). subst s.
  rewrite view_of_run. unfold TwoCpu.view at 1 2.
  cbn [TwoCpu.start TwoCpu.pcp TwoCpu.host TwoCpu.shared TwoCpu.at_pc
       TwoCpu.lockValue].
  rewrite Hm. split; reflexivity.
Qed.

(* ===================================================================== *)
(** ** The operations on the concrete target *)
(* ===================================================================== *)

(** C5.  A shared [circbuf_allocBuffer] asked for fewer bytes than the
    envelope takes still succeeds: with a request of 8 bytes, an envelope of
    24 and a window of 2048, the header pointer is base + 4, the payload
    pointer base + 24 and [UNLOCK] is written at offset 0, but the
    subtraction wraps and [*pSize_p] comes back as [2^32 - 16], so the
    payload region announced ends far beyond the window. *)
Theorem allocBuffer_shared_small_request :
  exists w',
    circbuf_allocBuffer sample_sizeof_header sample_getBuf sample_malloc quiet
      shared_instance 8 (sample_world 0)
    = Some (kCircBufOk, shared_instance_ready, 4294967280, w') /\
    pCircBufHeader shared_instance_ready = sample_base + 4 /\
    pCircBuf shared_instance_ready = sample_base + 24 /\
    wr_log w' = [(sample_base, CIRCBUF_HOSTIF_UNLOCK)] /\
    4294967280 = 2 ^ 32 - 16 /\
    sample_base + 2048 < pCircBuf shared_instance_ready + 4294967280.
Proof.
  eexists. split; [vm_compute; reflexivity |].
  vm_compute. repeat split.
Qed.

(** C6, the claim as stated fails: a successful local-only
    [circbuf_allocBuffer] issues no write, and every byte of the header
    block holds afterwards what it held before, whatever that was; the
    header is not initialised by this function. *)
Lemma allocBuffer_local_header_untouched :
  exists w1 w2,
    circbuf_allocBuffer sample_sizeof_header sample_getBuf sample_malloc quiet
      local_instance 64 (sample_world 0xAA)
    = Some (kCircBufOk, local_instance_ready, 64, w1) /\
    circbuf_allocBuffer sample_sizeof_header sample_getBuf sample_malloc quiet
      local_instance 64 (sample_world 0x55)
    = Some (kCircBufOk, local_instance_ready, 64, w2) /\
    wr_log w1 = [] /\ wr_log w2 = [] /\
    (forall a, pCircBufHeader local_instance_ready <= a
               < pCircBufHeader local_instance_ready + sample_sizeof_header ->
               mem w1 a = 0xAA /\ mem w2 a = 0x55).
Proof.
  eexists _, _. split; [vm_compute; reflexivity |].
  split; [vm_compute; reflexivity |].
  split; [reflexivity |]. split; [reflexivity |].
  intros a _. split; reflexivity.
Qed.

(** C10, the claim as stated fails: after [circbuf_freeBuffer] on a
    local-only instance the stored header pointer still names the released
    block, and a second [circbuf_freeBuffer] hands that block to
    [OPLK_FREE] again. *)
Lemma freeBuffer_twice_releases_again :
  let w := set_heap [(0x2000, 84)] (sample_world 0) in
  exists inst1 w1,
    circbuf_freeBuffer local_instance_ready w = Some (inst1, w1) /\
    pCircBufHeader inst1 = 0x2000 /\
    pCircBufHeader inst1 <> NULL /\
    heap w1 = [] /\
    OPLK_FREE (pCircBufHeader inst1) w1 = None /\
    circbuf_freeBuffer inst1 w1 = None.
Proof.
  eexists _, _. split; [vm_compute; reflexivity |].
  repeat split. discriminate.
Qed.

(** *** The theorems at the concrete target *)

(** Queue 4 (generic transmit queue) is shared; the handle is present. *)
Lemma createInstance_result_witness :
  exists slot r l',
    hostifInstance !! 4%nat = Some slot /\
    circbuf_createInstance sample_getInstance 4 sample_instance_l
      = Some (r, l') /\
    (r = None <->
       slot <> kHostifInstIdInvalid /\ sample_getInstance 0 = NULL) /\
    (r = None -> l' = sample_instance_l) /\
    (r <> None ->
       r = Some 4%nat /\
       exists inst,
         l' !! 4%nat = Some inst /\
         bufferId inst = 4%nat /\
         (pCircBufArchInstance inst = NULL <-> slot = kHostifInstIdInvalid)).
Proof.
  apply (createInstance_result sample_getInstance 4 sample_instance_l);
    [vm_compute; lia | reflexivity].
Defined.

(** A request of 4096 bytes against a window of 2048. *)
Lemma allocBuffer_shared_failure_witness :
  exists err inst' s' w',
    circbuf_allocBuffer sample_sizeof_header sample_getBuf sample_malloc quiet
      shared_instance 4096 (sample_world 0)
    = Some (err, inst', s', w') /\
    (err = kCircBufNoResource <->
       kHostifSuccessful <> kHostifSuccessful \/ 2048 < 4096) /\
    (err = kCircBufNoResource ->
       inst' = shared_instance /\ s' = 4096 /\ w' = sample_world 0).
Proof.
  apply (allocBuffer_shared_failure sample_sizeof_header sample_getBuf
           sample_malloc quiet shared_instance 4096 (sample_world 0)
           kHostifInstIdU2KQueue kHostifSuccessful sample_base 2048);
    [vm_compute; lia | reflexivity | reflexivity].
Defined.

(** A local-only request of 64 bytes, answered with the block at 0x2000. *)
Lemma allocBuffer_local_witness :
  exists err inst' w',
    circbuf_allocBuffer sample_sizeof_header sample_getBuf sample_malloc quiet
      local_instance 64 (sample_world 0)
    = Some (err, inst', 64, w') /\
    (err = kCircBufNoResource <-> 0x2000 = NULL) /\
    pCircBufHeader inst' = 0x2000 /\
    (0x2000 <> NULL ->
       pCircBuf inst' = 0x2000 + sample_sizeof_header /\
       heap w' = (0x2000, 64 + sample_sizeof_header) :: heap (sample_world 0)) /\
    (0x2000 = NULL ->
       pCircBuf inst' = pCircBuf local_instance /\
       heap w' = heap (sample_world 0)) /\
    pCircBufArchInstance inst' = NULL /\
    bufferId inst' = bufferId local_instance /\
    mem w' = mem (sample_world 0) /\
    wr_log w' = wr_log (sample_world 0) /\
    clock w' = clock (sample_world 0).
Proof.
  apply (allocBuffer_local sample_sizeof_header sample_getBuf sample_malloc
           quiet local_instance 64 (sample_world 0) 0x2000);
    try reflexivity; unfold sample_sizeof_header, SIZE_MODULUS; lia.
Defined.

(** Connecting the local-only and the shared instance. *)
Lemma connectBuffer_frame_witness :
  circbuf_connectBuffer sample_sizeof_header sample_getBuf
    local_instance (sample_world 0)
  = Some (kCircBufOk, local_instance, sample_world 0) /\
  exists err inst',
    circbuf_connectBuffer sample_sizeof_header sample_getBuf
      shared_instance (sample_world 0)
    = Some (err, inst', sample_world 0) /\
    (err = kCircBufNoResource <-> kHostifSuccessful <> kHostifSuccessful) /\
    (err = kCircBufNoResource -> inst' = shared_instance) /\
    (err = kCircBufOk ->
       inst' = mkInstance (pCircBufArchInstance shared_instance)
                 (bufferId shared_instance)
                 (field_address sample_base offsetof_circBufHeader)
                 (to_size_t (sample_base
                             + sizeof_tCircBufHostiBuffer sample_sizeof_header))).
Proof.
  split.
  - apply (connectBuffer_frame sample_sizeof_header sample_getBuf
             local_instance (sample_world 0)).
    reflexivity.
  - apply (connectBuffer_frame sample_sizeof_header sample_getBuf
             shared_instance (sample_world 0)) with (slot := kHostifInstIdU2KQueue)
                                                     (cap := 2048);
      [vm_compute; lia | reflexivity | reflexivity].
Defined.

(** Releasing the block at 0x2000 twice. *)
Lemma freeBuffer_keeps_pointer_witness :
  let w := set_heap [(0x2000, 84)] (sample_world 0) in
  OPLK_FREE (pCircBufHeader local_instance_ready) w = Some (sample_world 0) /\
  circbuf_freeBuffer local_instance_ready (sample_world 0) = None /\
  circbuf_freeBuffer shared_instance_ready w = Some (shared_instance_ready, w).
Proof.
  intros w.
  destruct (freeBuffer_keeps_pointer local_instance_ready w) as [Hlocal _].
  destruct (freeBuffer_keeps_pointer shared_instance_ready w) as [_ Hshared].
  destruct (Hlocal eq_refl local_instance_ready (sample_world 0) eq_refl)
    as (_ & Hfree & Hagain).
  split; [exact Hfree |]. split.
  - apply Hagain. vm_compute. lia.
  - apply Hshared. vm_compute. lia.
Defined.

(** The PCP takes the free lock of the envelope at [sample_base]. *)
Lemma lock_uncontended_witness :
  exists w',
    circbuf_lock true quiet 2 shared_instance_ready (sample_world 0)
    = (w', Returned (Some 1)) /\
    mem w' sample_base = 1 /\
    wr_log w' = [(sample_base, 1)] /\
    clock w' = 3%nat /\
    irq w' = false.
Proof.
  apply (lock_uncontended quiet true 2 shared_instance_ready (sample_world 0));
    [vm_compute; lia | reflexivity | reflexivity | lia].
Defined.

(** The envelope at [sample_base]: allocated, then locked and unlocked. *)
Lemma header_envelope_round_trip_witness :
  GET_QUEUE_BUF_BASE (field_address sample_base offsetof_circBufHeader)
    = sample_base /\
  GET_QUEUE_BUF_BASE (pCircBufHeader shared_instance_ready) = sample_base /\
  wr_log (circbuf_unlock quiet shared_instance_ready (sample_world 1))
    = [(sample_base, CIRCBUF_HOSTIF_UNLOCK)] /\
  wr_log (fst (circbuf_lock true quiet 1 shared_instance_ready (sample_world 0)))
    = [(sample_base, 1)] /\
  snd (circbuf_lock true quiet 1 shared_instance_ready (sample_world 1))
    = Returned (Some 1).
Proof.
  assert (Hb : 0 <= sample_base < SIZE_MODULUS) by (vm_compute; split; [discriminate | reflexivity]).
  destruct (header_envelope_round_trip sample_sizeof_header sample_getBuf
              sample_malloc quiet true sample_base Hb) as (Hbase & _ & Huse).
  split; [exact Hbase |].
  destruct (Huse shared_instance kHostifInstIdU2KQueue 2048) as [Halloc _];
    [vm_compute; lia | reflexivity | reflexivity |].
  destruct (Halloc 1024 (sample_world 0) shared_instance_ready 1000
              (HOSTIF_WR8 quiet sample_base 0 CIRCBUF_HOSTIF_UNLOCK
                 (sample_world 0)))
    as (_ & Hget & _ & Hunlock & Hlock & _); [reflexivity |].
  split; [exact Hget |]. split; [apply Hunlock |].
  destruct (Hlock (sample_world 0)) as (_ & Hfree & _).
  destruct (Hlock (sample_world 1)) as (Hheld & _).
  split; [rewrite Hfree; reflexivity | rewrite Hheld; reflexivity].
Defined.

(* ===================================================================== *)
(** ** More on the lock of one processor *)
(* ===================================================================== *)

Section LockFacts.

Variable remote : nat -> (Z -> Z) -> (Z -> Z).
Variable CONFIG_HOSTIF_PCP : bool.

Abbreviation LOCK := (CIRCBUF_HOSTIF_LOCK CONFIG_HOSTIF_PCP).
Abbreviation lock := (circbuf_lock CONFIG_HOSTIF_PCP remote).
Abbreviation unlock := (circbuf_unlock remote).
Abbreviation loop := (lock_loop CONFIG_HOSTIF_PCP remote).
Abbreviation pass := (lock_pass CONFIG_HOSTIF_PCP remote).
Abbreviation lock_address pHostifBuf :=
  (field_address pHostifBuf offsetof_lock + 0).
Abbreviation lock_byte inst :=
  (lock_address (GET_QUEUE_BUF_BASE (pCircBufHeader inst))).

(** A pass leaves the heap and the interrupt enable alone; when it ends
    the loop, the value read is the own identity and the byte holds it. *)
Lemma pass_frame (b : Z) (w : world) :
  let '(v, w1, again) := pass b w in
  heap w1 = heap w /\ irq w1 = irq w /\
  (again = false -> v = LOCK /\ to_UINT8 (mem w1 (lock_address b)) = LOCK).
Proof.
  unfold lock_pass, HOSTIF_RD8.
  destruct (Z.eqb_spec (to_UINT8 (remote (clock w) (mem w) (lock_address b)))
                       CIRCBUF_HOSTIF_UNLOCK) as [Hu | Hu].
  - rewrite Hu, (Z.eqb_sym CIRCBUF_HOSTIF_UNLOCK), lock_is_not_unlock.
    cbn [negb HOSTIF_WR8 heap irq].
    split; [reflexivity | split; [reflexivity | discriminate]].
  - destruct (Z.eqb_spec (to_UINT8 (remote (clock w) (mem w) (lock_address b)))
                         LOCK) as [Ho | Ho]; cbn [negb heap irq mem].
    + split; [reflexivity | split; [reflexivity |]].
      intros _. split; assumption.
    + split; [reflexivity | split; [reflexivity | discriminate]].
Qed.

Lemma loop_frame (fuel : nat) (b : Z) (w : world) :
  let '(w', r) := loop fuel b w in
  heap w' = heap w /\ irq w' = irq w /\
  (forall v, r = Some v ->
     v = LOCK /\ to_UINT8 (mem w' (lock_address b)) = LOCK).
Proof.
  revert w. induction fuel as [| fuel IH]; intros w.
  - cbn [lock_loop]. split; [reflexivity | split; [reflexivity | discriminate]].
  - cbn [lock_loop]. pose proof (pass_frame b w) as Hpass.
    destruct (pass b w) as [[v w1] again].
    destruct Hpass as (Hheap & Hirq & Hexit). destruct again.
    + specialize (IH w1). destruct (loop fuel b w1) as [w' r].
      destruct IH as (Hheap' & Hirq' & Hr).
      split; [congruence |]. split; [congruence | exact Hr].
    + split; [exact Hheap |]. split; [exact Hirq |].
      intros v' [= <-]. now apply Hexit.
Qed.

(** X1.  Whenever [circbuf_lock] returns, whatever the other processor
    did meanwhile, interrupts are off and the heap is as before; on a
    local-only instance nothing else has happened; on a shared instance
    the last value read is the own lock identity and the lock byte, as of
    that read, holds it. *)
Theorem lock_returns_with_own_identity
    (fuel : nat) (inst : tCircBufInstance) (w w' : world) (r : option Z) :
  lock fuel inst w = (w', Returned r) ->
  irq w' = false /\ heap w' = heap w /\
  (pCircBufArchInstance inst = NULL ->
     r = None /\ w' = target_enableGlobalInterrupt false w) /\
  (pCircBufArchInstance inst <> NULL ->
     r = Some LOCK /\ to_UINT8 (mem w' (lock_byte inst)) = LOCK).
Proof.
  unfold circbuf_lock.
  destruct (Z.eqb_spec (pCircBufArchInstance inst) NULL) as [E | E];
    cbn [negb].
  - intros [= <- <-]. repeat split; try reflexivity; contradiction.
  - pose proof (loop_frame fuel (GET_QUEUE_BUF_BASE (pCircBufHeader inst))
                  (target_enableGlobalInterrupt false w)) as Hloop.
    destruct (loop fuel _ _) as [w1 [v |]]; [| discriminate].
    intros [= <- <-]. destruct Hloop as (Hheap & Hirq & Hr).
    destruct (Hr v eq_refl) as [-> Hbyte].
    split; [exact Hirq |]. split; [exact Hheap |].
    split; [contradiction |]. intros _. split; [reflexivity | exact Hbyte].
Qed.

(** While the byte holds a value that is neither [UNLOCK] nor the own
    identity and nobody changes it, every pass reads it and goes on. *)
Lemma loop_spins (fuel : nat) (b : Z) (w : world) :
  (forall t m, remote t m (lock_address b) = m (lock_address b)) ->
  to_UINT8 (mem w (lock_address b)) <> CIRCBUF_HOSTIF_UNLOCK ->
  to_UINT8 (mem w (lock_address b)) <> LOCK ->
  exists w',
    loop fuel b w = (w', None) /\
    wr_log w' = wr_log w /\ clock w' = (clock w + fuel)%nat /\
    mem w' (lock_address b) = mem w (lock_address b) /\
    irq w' = irq w.
Proof.
  intros Hquiet. revert w. induction fuel as [| fuel IH]; intros w Hu Ho.
  - exists w. cbn [lock_loop]. repeat split. lia.
  - cbn [lock_loop]. rewrite pass_reads_other by (now rewrite Hquiet).
    set (w1 := mkWorld _ _ _ _ _ _).
    assert (Hmem : mem w1 (lock_address b) = mem w (lock_address b))
      by apply Hquiet.
    destruct (IH w1) as (w' & Hrun & Hlog & Hclock & Hbyte & Hirq);
      [now rewrite Hmem | now rewrite Hmem |].
    exists w'. split; [exact Hrun |].
    split; [exact Hlog |]. split; [rewrite Hclock; cbn [w1 clock]; lia |].
    split; [congruence | exact Hirq].
Qed.

(** X2.  A shared [circbuf_lock] never returns while the lock byte holds
    a value other than [UNLOCK] and the own identity (the identity of the
    other side, say) and the other processor does not change it: however
    many passes are granted, each one reads the byte once, nothing is
    written, and interrupts stay off. *)
Theorem lock_spins_while_held
    (fuel : nat) (inst : tCircBufInstance) (w : world) :
  pCircBufArchInstance inst <> NULL ->
  (forall t m, remote t m (lock_byte inst) = m (lock_byte inst)) ->
  to_UINT8 (mem w (lock_byte inst)) <> CIRCBUF_HOSTIF_UNLOCK ->
  to_UINT8 (mem w (lock_byte inst)) <> LOCK ->
  exists w',
    lock fuel inst w = (w', Spinning) /\
    wr_log w' = wr_log w /\ clock w' = (clock w + fuel)%nat /\
    mem w' (lock_byte inst) = mem w (lock_byte inst) /\
    irq w' = false.
Proof.
  intros Harch Hquiet Hu Ho. unfold circbuf_lock.
  destruct (Z.eqb_spec (pCircBufArchInstance inst) NULL) as [E | _];
    [contradiction |].
  cbn [negb].
  destruct (loop_spins fuel (GET_QUEUE_BUF_BASE (pCircBufHeader inst))
              (target_enableGlobalInterrupt false w) Hquiet Hu Ho)
    as (w' & Hrun & Hlog & Hclock & Hbyte & Hirq).
  rewrite Hrun. exists w'. repeat split; assumption.
Qed.

(** The world in which [circbuf_lock] returns when it finds the lock
    free: read, write, confirming read. *)
Lemma lock_free_world (fuel : nat) (inst : tCircBufInstance) (w : world) :
  pCircBufArchInstance inst <> NULL ->
  (forall t m, remote t m (lock_byte inst) = m (lock_byte inst)) ->
  to_UINT8 (mem w (lock_byte inst)) = CIRCBUF_HOSTIF_UNLOCK ->
  lock (S (S fuel)) inst w =
    (mkWorld (remote (S (S (clock w)))
                (store (lock_byte inst) LOCK
                   (remote (S (clock w)) (remote (clock w) (mem w)))))
             ((lock_byte inst, LOCK) :: wr_log w)
             (S (S (S (clock w)))) (heap w) false (irq w :: irq_saved w),
     Returned (Some LOCK)).
Proof.
  intros Harch Hquiet Hfree. unfold circbuf_lock.
  destruct (Z.eqb_spec (pCircBufArchInstance inst) NULL) as [E | _];
    [contradiction |].
  cbn [negb lock_loop].
  rewrite pass_reads_unlock
    by (cbn [target_enableGlobalInterrupt set_gate mem clock];
        now rewrite Hquiet).
  rewrite pass_reads_own
    by (cbn [mem clock]; now rewrite Hquiet, store_same, to_UINT8_lock).
  reflexivity.
Qed.

(** X3.  Taking the free lock and releasing it: with the lock byte at
    [UNLOCK] and the other processor not writing it, [circbuf_unlock] after
    [circbuf_lock] leaves the byte at [UNLOCK] again, having written the
    identity and then [UNLOCK] in four accesses; the heap is as before, and
    the interrupt gate is back in the state of before the lock: the enable
    is what it was, on or off, and so are the tokens outstanding. *)
Theorem lock_then_unlock
    (fuel : nat) (inst : tCircBufInstance) (w : world) :
  pCircBufArchInstance inst <> NULL ->
  (forall t m, remote t m (lock_byte inst) = m (lock_byte inst)) ->
  to_UINT8 (mem w (lock_byte inst)) = CIRCBUF_HOSTIF_UNLOCK ->
  (2 <= fuel)%nat ->
  exists w1,
    lock fuel inst w = (w1, Returned (Some LOCK)) /\
    let w2 := unlock inst w1 in
    mem w2 (lock_byte inst) = CIRCBUF_HOSTIF_UNLOCK /\
    wr_log w2 = (lock_byte inst, CIRCBUF_HOSTIF_UNLOCK)
                :: (lock_byte inst, LOCK) :: wr_log w /\
    clock w2 = (clock w + 4)%nat /\
    heap w2 = heap w /\
    irq w2 = irq w /\ irq_saved w2 = irq_saved w.
Proof.
  intros Harch Hquiet Hfree Hfuel.
  destruct fuel as [| [| fuel]]; [lia | lia |].
  rewrite (lock_free_world fuel inst w Harch Hquiet Hfree).
  eexists. split; [reflexivity |].
  unfold circbuf_unlock.
  destruct (Z.eqb_spec (pCircBufArchInstance inst) NULL) as [E | _];
    [contradiction |].
  cbn [negb HOSTIF_WR8 target_enableGlobalInterrupt set_gate
       mem wr_log clock heap irq irq_saved].
  rewrite store_same, to_UINT8_unlock.
  repeat split. lia.
Qed.

(** X4.  The lock byte does not count, the interrupt gate does: when the
    lock byte already holds the own identity (the processor is inside the
    locked section and calls [circbuf_lock] again), the call returns after
    one read without writing; the first [circbuf_unlock] after it puts the
    byte back to [UNLOCK], although the outer section has not ended, and
    puts the interrupt gate back in the state of before the inner call, so
    that interrupts that were off stay off. *)
Theorem lock_again_then_unlock
    (fuel : nat) (inst : tCircBufInstance) (w : world) :
  pCircBufArchInstance inst <> NULL ->
  (forall t m, remote t m (lock_byte inst) = m (lock_byte inst)) ->
  to_UINT8 (mem w (lock_byte inst)) = LOCK ->
  (1 <= fuel)%nat ->
  exists w1,
    lock fuel inst w = (w1, Returned (Some LOCK)) /\
    wr_log w1 = wr_log w /\ clock w1 = S (clock w) /\
    mem w1 (lock_byte inst) = mem w (lock_byte inst) /\
    let w2 := unlock inst w1 in
    mem w2 (lock_byte inst) = CIRCBUF_HOSTIF_UNLOCK /\
    irq w2 = irq w /\ irq_saved w2 = irq_saved w.
Proof.
  intros Harch Hquiet Hheld Hfuel.
  destruct fuel as [| fuel]; [lia |].
  unfold circbuf_lock, circbuf_unlock.
  destruct (Z.eqb_spec (pCircBufArchInstance inst) NULL) as [E | _];
    [contradiction |].
  cbn [negb lock_loop].
  rewrite pass_reads_own
    by (cbn [target_enableGlobalInterrupt set_gate mem clock];
        now rewrite Hquiet).
  eexists. split; [reflexivity |].
  cbn [negb HOSTIF_WR8 target_enableGlobalInterrupt set_gate
       mem wr_log clock heap irq irq_saved].
  rewrite store_same, to_UINT8_unlock, Hquiet.
  repeat split.
Qed.

(** X5.  On a local-only instance the lock is the interrupt gate and
    nothing else: [circbuf_lock] returns without a single pass granted,
    having done what [target_enableGlobalInterrupt(FALSE)] does and
    nothing to memory, write log, access count or heap, and
    [circbuf_unlock] after it gives back the world of before the lock,
    interrupt enable and tokens included. *)
Theorem lock_local_is_interrupt_gate
    (fuel : nat) (inst : tCircBufInstance) (w : world) :
  pCircBufArchInstance inst = NULL ->
  lock fuel inst w = (target_enableGlobalInterrupt false w, Returned None) /\
  mem (fst (lock fuel inst w)) = mem w /\
  wr_log (fst (lock fuel inst w)) = wr_log w /\
  clock (fst (lock fuel inst w)) = clock w /\
  heap (fst (lock fuel inst w)) = heap w /\
  irq (fst (lock fuel inst w)) = false /\
  unlock inst (fst (lock fuel inst w)) = w.
Proof.
  intros Harch. unfold circbuf_lock, circbuf_unlock. rewrite Harch.
  cbn [Z.eqb NULL negb fst].
  repeat split. now destruct w.
Qed.

End LockFacts.

(* ===================================================================== *)
(** ** More on buffers and instances *)
(* ===================================================================== *)

Section Lifecycle.

Variable sizeof_tCircBufHeader : Z.
Variable hostif_getInstance : Z -> Z.
Variable hostif_getBuf : Z -> tHostifInstanceId -> tHostifReturn * Z * Z.
Variable malloc_choice : list (Z * Z) -> Z -> Z.
Variable remote : nat -> (Z -> Z) -> (Z -> Z).

Abbreviation allocBuffer :=
  (circbuf_allocBuffer sizeof_tCircBufHeader hostif_getBuf malloc_choice remote).
Abbreviation connectBuffer :=
  (circbuf_connectBuffer sizeof_tCircBufHeader hostif_getBuf).
Abbreviation createInstance := (circbuf_createInstance hostif_getInstance).
Abbreviation sizeof_envelope := (sizeof_tCircBufHostiBuffer sizeof_tCircBufHeader).

(** X6.  A successful shared [circbuf_allocBuffer] issues one access, the
    write of [UNLOCK] to the lock byte, whatever that byte held (a lock
    held by the other side is broken); every other byte of the memory,
    the ring header included, is left as the other processor has it; heap
    and interrupt enable are untouched, and the instance keeps its handle
    and its id. *)
Theorem allocBuffer_shared_writes_lock_only
    (inst : tCircBufInstance) (s : Z) (w : world)
    (slot : tHostifInstanceId) (base cap : Z) :
  pCircBufArchInstance inst <> NULL ->
  hostifInstance !! bufferId inst = Some slot ->
  hostif_getBuf (pCircBufArchInstance inst) slot = (kHostifSuccessful, base, cap) ->
  0 <= base < SIZE_MODULUS ->
  s <= cap ->
  exists inst' s' w',
    allocBuffer inst s w = Some (kCircBufOk, inst', s', w') /\
    mem w' base = CIRCBUF_HOSTIF_UNLOCK /\
    (forall a, a <> base -> mem w' a = remote (clock w) (mem w) a) /\
    wr_log w' = (base, CIRCBUF_HOSTIF_UNLOCK) :: wr_log w /\
    clock w' = S (clock w) /\
    heap w' = heap w /\ irq w' = irq w /\
    pCircBufArchInstance inst' = pCircBufArchInstance inst /\
    bufferId inst' = bufferId inst.
Proof.
  intros Harch Hslot Hbuf Hb Hs.
  rewrite (allocBuffer_shared_cases _ _ _ _ inst s w slot _ base cap
             Harch Hslot Hbuf).
  cbn [hostif_ok negb orb].
  destruct (Z.ltb_spec cap s) as [Hlt | _]; [lia |].
  eexists _, _, _. split; [reflexivity |].
  cbn [HOSTIF_WR8 mem wr_log clock heap irq pCircBufArchInstance bufferId].
  rewrite (field_address_lock base Hb), to_UINT8_unlock.
  split; [apply store_same |].
  split; [| repeat split].
  intros a Ha. unfold store. now destruct (Z.eqb_spec a base).
Qed.

(** X8.  When size plus header does not fit [size_t], the local-only
    [circbuf_allocBuffer] asks the allocator for the wrapped sum, which is
    less than the size asked for, and still reports success with
    [*pSize_p] at the size asked for. *)
Theorem allocBuffer_local_wraps
    (inst : tCircBufInstance) (s : Z) (w : world) (p : Z) :
  pCircBufArchInstance inst = NULL ->
  0 <= s < SIZE_MODULUS -> 0 <= sizeof_tCircBufHeader < SIZE_MODULUS ->
  SIZE_MODULUS <= s + sizeof_tCircBufHeader ->
  malloc_choice (heap w) (s + sizeof_tCircBufHeader - SIZE_MODULUS) = p ->
  p <> NULL ->
  exists inst' w',
    allocBuffer inst s w = Some (kCircBufOk, inst', s, w') /\
    pCircBufHeader inst' = p /\
    heap w' = (p, s + sizeof_tCircBufHeader - SIZE_MODULUS) :: heap w /\
    s + sizeof_tCircBufHeader - SIZE_MODULUS < s.
Proof.
  intros Harch Hs HH Hwrap Hp Hblk.
  unfold circbuf_allocBuffer. rewrite Harch. cbn [Z.eqb NULL].
  assert (Hsum : to_size_t (s + sizeof_tCircBufHeader)
                 = s + sizeof_tCircBufHeader - SIZE_MODULUS).
  { unfold to_size_t. symmetry.
    apply (Z.mod_unique_pos _ _ 1); unfold SIZE_MODULUS in *; lia. }
  rewrite Hsum. unfold OPLK_MALLOC. rewrite Hp.
  cbn [pCircBufHeader set_pCircBufHeader].
  destruct (Z.eqb_spec p NULL) as [E | _]; [contradiction |].
  eexists _, _. split; [reflexivity |].
  cbn [pCircBufHeader set_pCircBuf set_heap heap].
  repeat split. lia.
Qed.

Lemma is_block_self (p n : Z) : is_block p (p, n) = true.
Proof. unfold is_block. cbn [fst]. apply Z.eqb_refl. Qed.

Lemma keep_others (p : Z) (h : list (Z * Z)) :
  existsb (is_block p) h = false ->
  List.filter (fun b => negb (is_block p b)) h = h.
Proof.
  induction h as [| b h IH]; [reflexivity |].
  cbn [existsb List.filter]. intros H.
  apply orb_false_iff in H. destruct H as [Hb Hh].
  rewrite Hb. cbn [negb]. now rewrite IH.
Qed.

(** What the local-only [circbuf_allocBuffer] does, by the answer of the
    allocator. *)
Lemma allocBuffer_local_cases (inst : tCircBufInstance) (s : Z) (w : world) :
  pCircBufArchInstance inst = NULL ->
  let size := to_size_t (s + sizeof_tCircBufHeader) in
  let p := malloc_choice (heap w) size in
  allocBuffer inst s w =
    if Z.eqb p NULL
    then Some (kCircBufNoResource, set_pCircBufHeader p inst, s, w)
    else Some (kCircBufOk,
               set_pCircBuf (to_size_t (p + sizeof_tCircBufHeader))
                 (set_pCircBufHeader p inst),
               s, set_heap ((p, size) :: heap w) w).
Proof.
  intros Harch size p. unfold circbuf_allocBuffer. rewrite Harch.
  cbn [Z.eqb NULL]. unfold OPLK_MALLOC. fold size. fold p.
  cbn [pCircBufHeader set_pCircBufHeader].
  now destruct (Z.eqb p NULL).
Qed.

(** X9.  [circbuf_freeBuffer] releases what the local-only
    [circbuf_allocBuffer] took: after a successful allocation at an
    address not allocated before, freeing gives back the heap of before the
    allocation, with memory and write log as they were; the instance still
    carries the pointers to the released block. *)
Theorem allocBuffer_then_freeBuffer
    (inst : tCircBufInstance) (s : Z) (w : world)
    (inst1 : tCircBufInstance) (s1 : Z) (w1 : world) :
  pCircBufArchInstance inst = NULL ->
  allocBuffer inst s w = Some (kCircBufOk, inst1, s1, w1) ->
  existsb (is_block (pCircBufHeader inst1)) (heap w) = false ->
  circbuf_freeBuffer inst1 w1 = Some (inst1, w) /\
  pCircBufHeader inst1 <> NULL /\
  pCircBufHeader inst1
    = malloc_choice (heap w) (to_size_t (s + sizeof_tCircBufHeader)).
Proof.
  intros Harch. rewrite (allocBuffer_local_cases inst s w Harch).
  destruct (Z.eqb_spec (malloc_choice (heap w)
                          (to_size_t (s + sizeof_tCircBufHeader))) NULL)
    as [E | Hp]; [discriminate |].
  intros [= <- <- <-] Hfresh.
  cbn [pCircBufHeader set_pCircBuf set_pCircBufHeader] in *.
  split; [| split; [exact Hp | reflexivity]].
  unfold circbuf_freeBuffer.
  cbn [pCircBufArchInstance pCircBufHeader set_pCircBuf set_pCircBufHeader].
  rewrite Harch. cbn [Z.eqb NULL]. unfold OPLK_FREE.
  destruct (Z.eqb_spec (malloc_choice (heap w)
                          (to_size_t (s + sizeof_tCircBufHeader))) NULL)
    as [E | _]; [contradiction |].
  cbn [heap set_heap existsb List.filter]. rewrite !is_block_self.
  cbn [orb negb mbind option_bind].
  rewrite (keep_others _ _ Hfresh). now destruct w.
Qed.

(** X10.  A refused allocation leaves an instance that is safe to free:
    when the allocator answers [NULL], the local-only
    [circbuf_allocBuffer] returns [kCircBufNoResource] with the world
    untouched and the header pointer at [NULL] (the payload pointer is not
    changed), and [circbuf_freeBuffer] on that instance changes nothing. *)
Theorem allocBuffer_refused_then_freeBuffer
    (inst : tCircBufInstance) (s : Z) (w : world) :
  pCircBufArchInstance inst = NULL ->
  malloc_choice (heap w) (to_size_t (s + sizeof_tCircBufHeader)) = NULL ->
  allocBuffer inst s w
    = Some (kCircBufNoResource, set_pCircBufHeader NULL inst, s, w) /\
  circbuf_freeBuffer (set_pCircBufHeader NULL inst) w
    = Some (set_pCircBufHeader NULL inst, w).
Proof.
  intros Harch Hp. rewrite (allocBuffer_local_cases inst s w Harch), Hp.
  split; [reflexivity |].
  unfold circbuf_freeBuffer.
  cbn [pCircBufArchInstance pCircBufHeader set_pCircBufHeader].
  now rewrite Harch.
Qed.

(** X11.  [circbuf_allocBuffer] never releases: a second successful
    local-only allocation on the same instance, at another address,
    overwrites the pointers, and a [circbuf_freeBuffer] after it releases
    the second block only; the first block stays allocated with no pointer
    to it left in the instance. *)
Theorem allocBuffer_twice_keeps_first_block
    (inst : tCircBufInstance) (s s' : Z) (w : world)
    (inst1 inst2 : tCircBufInstance) (s1 s2 : Z) (w1 w2 : world) :
  pCircBufArchInstance inst = NULL ->
  allocBuffer inst s w = Some (kCircBufOk, inst1, s1, w1) ->
  allocBuffer inst1 s' w1 = Some (kCircBufOk, inst2, s2, w2) ->
  pCircBufHeader inst2 <> pCircBufHeader inst1 ->
  exists w3,
    circbuf_freeBuffer inst2 w2 = Some (inst2, w3) /\
    existsb (is_block (pCircBufHeader inst1)) (heap w3) = true /\
    existsb (is_block (pCircBufHeader inst2)) (heap w3) = false.
Proof.
  intros Harch. rewrite (allocBuffer_local_cases inst s w Harch).
  destruct (Z.eqb_spec (malloc_choice (heap w)
                          (to_size_t (s + sizeof_tCircBufHeader))) NULL)
    as [E | Hp1]; [discriminate |].
  set (p1 := malloc_choice (heap w) _) in *.
  intros [= <- <- <-].
  rewrite allocBuffer_local_cases by exact Harch.
  cbn [heap set_heap].
  destruct (Z.eqb_spec (malloc_choice ((p1, to_size_t (s + sizeof_tCircBufHeader))
                                       :: heap w)
                          (to_size_t (s' + sizeof_tCircBufHeader))) NULL)
    as [E | Hp2]; [discriminate |].
  set (p2 := malloc_choice (_ :: heap w) _) in *.
  intros [= <- <- <-].
  cbn [pCircBufHeader set_pCircBuf set_pCircBufHeader]. intros Hne.
  unfold circbuf_freeBuffer.
  cbn [pCircBufArchInstance pCircBufHeader set_pCircBuf set_pCircBufHeader].
  rewrite Harch. cbn [Z.eqb NULL]. unfold OPLK_FREE.
  destruct (Z.eqb_spec p2 NULL) as [E | _]; [contradiction |].
  cbn [heap set_heap existsb]. rewrite is_block_self.
  cbn [orb mbind option_bind]. eexists. split; [reflexivity |].
  cbn [heap set_heap List.filter]. rewrite is_block_self. cbn [negb].
  assert (Hother : is_block p2 (p1, to_size_t (s + sizeof_tCircBufHeader))
                   = false).
  { unfold is_block. cbn [fst]. apply Z.eqb_neq. congruence. }
  rewrite Hother. cbn [negb existsb]. rewrite is_block_self.
  split; [reflexivity |]. rewrite Hother. apply block_gone.
Qed.

(** X12.  [circbuf_connectBuffer] wires the pointers that
    [circbuf_allocBuffer] wires: on the instance a successful shared
    allocation leaves, connecting changes nothing, and connecting the
    instance of before the allocation gives that same instance, whatever
    size was asked for (the capacity is not looked at). *)
Theorem connectBuffer_after_allocBuffer
    (inst : tCircBufInstance) (s : Z) (w : world)
    (inst1 : tCircBufInstance) (s1 : Z) (w1 : world) (slot : tHostifInstanceId) :
  pCircBufArchInstance inst <> NULL ->
  hostifInstance !! bufferId inst = Some slot ->
  allocBuffer inst s w = Some (kCircBufOk, inst1, s1, w1) ->
  forall w2,
    connectBuffer inst w2 = Some (kCircBufOk, inst1, w2) /\
    connectBuffer inst1 w2 = Some (kCircBufOk, inst1, w2).
Proof.
  intros Harch Hslot.
  destruct (hostif_getBuf (pCircBufArchInstance inst) slot)
    as [[ret base] cap] eqn:Hbuf.
  rewrite (allocBuffer_shared_cases _ _ _ _ inst s w slot ret base cap
             Harch Hslot Hbuf).
  destruct ret as [| code]; cbn [hostif_ok negb orb]; [| discriminate].
  destruct (Z.ltb cap s); [discriminate |].
  intros [= <- <- <-] w2. split.
  - rewrite (connectBuffer_shared_cases _ _ inst w2 slot _ base cap
               Harch Hslot Hbuf).
    reflexivity.
  - rewrite (connectBuffer_shared_cases _ _ _ w2 slot kHostifSuccessful
               base cap); [reflexivity | exact Harch | exact Hslot | exact Hbuf].
Qed.

(** X13.  [circbuf_createInstance] touches one element of [instance_l]
    and, in it, the handle and the id only: the table keeps its length,
    every other element is as before, the header and payload pointers of
    the element are as before (an allocated buffer survives re-creation),
    and creating the same id once more changes nothing further. *)
Theorem createInstance_frame
    (id : nat) (l l' : list tCircBufInstance) (r : option nat) :
  createInstance id l = Some (r, l') ->
  length l' = length l /\
  (forall j, j <> id -> l' !! j = l !! j) /\
  (exists old new,
     l !! id = Some old /\ l' !! id = Some new /\
     pCircBufHeader new = pCircBufHeader old /\
     pCircBuf new = pCircBuf old) /\
  createInstance id l' = Some (r, l').
Proof.
  unfold circbuf_createInstance.
  destruct (l !! id) as [old |] eqn:Hold; cbn [mbind option_bind];
    [| discriminate].
  destruct (hostifInstance !! id) as [slot |] eqn:Hslot;
    cbn [mbind option_bind]; [| discriminate].
  assert (Hid : (id < length l)%nat) by (eapply lookup_lt_Some; exact Hold).
  assert (Hcase : forall p,
            l' = <[id := set_bufferId id (set_pCircBufArchInstance p old)]> l ->
            length l' = length l /\
            (forall j, j <> id -> l' !! j = l !! j) /\
            (exists old0 new,
               Some old = Some old0 /\ l' !! id = Some new /\
               pCircBufHeader new = pCircBufHeader old0 /\
               pCircBuf new = pCircBuf old0) /\
            l' !! id = Some (set_bufferId id (set_pCircBufArchInstance p old)) /\
            <[id := set_bufferId id
                      (set_pCircBufArchInstance p
                         (set_bufferId id (set_pCircBufArchInstance p old)))]> l'
            = l').
  { intros p ->.
    split; [apply length_insert |].
    split; [intros j Hj; now apply list_lookup_insert_ne |].
    split; [exists old; eexists; split; [reflexivity |];
            split; [now apply list_lookup_insert_eq | split; reflexivity] |].
    split; [now apply list_lookup_insert_eq |].
    apply list_insert_id. now apply list_lookup_insert_eq. }
  destruct (decide (slot = kHostifInstIdInvalid)) as [Hinv | Hshared].
  - intros [= <- <-].
    destruct (Hcase NULL eq_refl) as (Hlen & Hother & Hsame & Hnew & Hidem).
    split; [exact Hlen |]. split; [exact Hother |]. split; [exact Hsame |].
    rewrite Hnew. cbn [mbind option_bind].
    destruct (decide (slot = kHostifInstIdInvalid)); [| contradiction].
    now rewrite Hidem.
  - destruct (Z.eqb_spec (hostif_getInstance 0) NULL) as [Hnull | Hhandle].
    + intros [= <- <-].
      split; [reflexivity |]. split; [reflexivity |].
      split; [exists old, old; repeat split; exact Hold |].
      rewrite Hold. cbn [mbind option_bind].
      destruct (decide (slot = kHostifInstIdInvalid)); [contradiction |].
      destruct (Z.eqb_spec (hostif_getInstance 0) NULL);
        [reflexivity | contradiction].
    + intros [= <- <-].
      destruct (Hcase (hostif_getInstance 0) eq_refl)
        as (Hlen & Hother & Hsame & Hnew & Hidem).
      split; [exact Hlen |]. split; [exact Hother |]. split; [exact Hsame |].
      rewrite Hnew. cbn [mbind option_bind].
      destruct (decide (slot = kHostifInstIdInvalid)); [contradiction |].
      destruct (Z.eqb_spec (hostif_getInstance 0) NULL); [contradiction |].
      now rewrite Hidem.
Qed.

(** X14.  An instance that [circbuf_createInstance] returned never takes
    [circbuf_allocBuffer] or [circbuf_connectBuffer] beyond the registry:
    its id is below [NR_OF_CIRC_BUFFERS], so both calls are defined for
    every size and world. *)
Theorem created_instance_is_usable
    (id k : nat) (l l' : list tCircBufInstance) (inst : tCircBufInstance)
    (s : Z) (w : world) :
  createInstance id l = Some (Some k, l') ->
  l' !! k = Some inst ->
  k = id /\
  (bufferId inst < NR_OF_CIRC_BUFFERS)%nat /\
  is_Some (allocBuffer inst s w) /\
  is_Some (connectBuffer inst w).
Proof.
  unfold circbuf_createInstance.
  destruct (l !! id) as [old |] eqn:Hold; cbn [mbind option_bind];
    [| discriminate].
  destruct (hostifInstance !! id) as [slot |] eqn:Hslot;
    cbn [mbind option_bind]; [| discriminate].
  assert (Hid : (id < length l)%nat) by (eapply lookup_lt_Some; exact Hold).
  assert (Hrange : (id < NR_OF_CIRC_BUFFERS)%nat)
    by (eapply lookup_lt_Some; exact Hslot).
  assert (Huse : forall p,
            l' = <[id := set_bufferId id (set_pCircBufArchInstance p old)]> l ->
            l' !! id = Some inst ->
            (bufferId inst < NR_OF_CIRC_BUFFERS)%nat /\
            is_Some (allocBuffer inst s w) /\
            is_Some (connectBuffer inst w)).
  { intros p -> Hinst.
    rewrite list_lookup_insert_eq in Hinst by exact Hid.
    injection Hinst as <-. cbn [bufferId set_bufferId]. split; [exact Hrange |].
    unfold circbuf_allocBuffer, circbuf_connectBuffer.
    cbn [pCircBufArchInstance bufferId set_bufferId set_pCircBufArchInstance].
    rewrite Hslot. cbn [mbind option_bind].
    destruct (hostif_getBuf p slot) as [[ret base] cap].
    destruct (Z.eqb p NULL); cbn [negb].
    - split; [| eexists; reflexivity].
      destruct (OPLK_MALLOC _ _ _) as [q w1].
      destruct (Z.eqb _ NULL); eexists; reflexivity.
    - destruct (hostif_ok ret); cbn [negb];
        [destruct (Z.ltb cap s) |]; split; eexists; reflexivity. }
  destruct (decide (slot = kHostifInstIdInvalid)) as [Hinv | Hshared].
  - intros [= <- <-] Hinst. split; [reflexivity |]. now apply (Huse NULL).
  - destruct (Z.eqb_spec (hostif_getInstance 0) NULL) as [Hnull | Hhandle];
      [discriminate |].
    intros [= <- <-] Hinst. split; [reflexivity |].
    now apply (Huse (hostif_getInstance 0)).
Qed.

End Lifecycle.

(* ===================================================================== *)
(** ** Invariants of the two-processor machine *)
(* ===================================================================== *)

Ltac lock_values :=
  unfold TwoCpu.own_lock, TwoCpu.config_of, CIRCBUF_HOSTIF_LOCK,
    CIRCBUF_HOSTIF_UNLOCK in *.

(** A step changes the memory at the lock byte only. *)
Lemma cpu_step_memory (c : TwoCpu.cpu_id) (b : Z) (m : Z -> Z)
    (p : TwoCpu.cpu) (a : Z) :
  a <> field_address b offsetof_lock + 0 ->
  snd (TwoCpu.cpu_step c b m p) a = m a.
Proof.
  intros Ha. unfold TwoCpu.cpu_step, HOSTIF_RD8, HOSTIF_WR8, quiet.
  cbn [TwoCpu.with_mem mem clock wr_log heap irq irq_saved].
  destruct (TwoCpu.at_pc p);
    repeat (destruct (Z.eqb _ _); cbn [negb]);
    cbn [snd mem]; try reflexivity;
    unfold store; now destruct (Z.eqb_spec a (field_address b offsetof_lock + 0)).
Qed.

Lemma step_memory (c : TwoCpu.cpu_id) (b : Z) (s : TwoCpu.system) (a : Z) :
  a <> field_address b offsetof_lock + 0 ->
  TwoCpu.shared (TwoCpu.step b c s) a = TwoCpu.shared s a.
Proof.
  intros Ha. unfold TwoCpu.step. destruct c.
  - pose proof (cpu_step_memory TwoCpu.PCP b (TwoCpu.shared s) (TwoCpu.pcp s) a Ha) as H.
    now destruct (TwoCpu.cpu_step TwoCpu.PCP b _ _).
  - pose proof (cpu_step_memory TwoCpu.HOST b (TwoCpu.shared s) (TwoCpu.host s) a Ha) as H.
    now destruct (TwoCpu.cpu_step TwoCpu.HOST b _ _).
Qed.

(** A step leaves the lock byte as it is or puts [UNLOCK] or an identity
    there. *)
Lemma view_step_lock (c : TwoCpu.cpu_id) (v : TwoCpu.lock_view) :
  TwoCpu.v_lock (TwoCpu.view_step c v) = TwoCpu.v_lock v \/
  TwoCpu.v_lock (TwoCpu.view_step c v) = CIRCBUF_HOSTIF_UNLOCK \/
  TwoCpu.v_lock (TwoCpu.view_step c v) = TwoCpu.own_lock c.
Proof.
  destruct v as [[pc1 l1] [pc2 l2] l].
  unfold TwoCpu.view_step, TwoCpu.view_cpu_step.
  cbn [TwoCpu.v_pcp TwoCpu.v_host TwoCpu.v_lock fst snd].
  destruct c; [destruct pc1 | destruct pc2];
    repeat (destruct (Z.eqb _ _); cbn [negb]);
    cbn [TwoCpu.v_lock]; auto.
Qed.

(** X15.  Under every schedule the two processors change no byte of the
    memory but the lock byte, and a lock byte that starts at one of
    [UNLOCK], [LOCK_PCP] and [LOCK_HOST] holds one of the three ever
    after. *)
Theorem lock_byte_is_all_that_changes
    (b : Z) (schedule : list TwoCpu.cpu_id) (s0 : TwoCpu.system) :
  let a := field_address b offsetof_lock + 0 in
  let s := TwoCpu.run b schedule s0 in
  (forall a', a' <> a -> TwoCpu.shared s a' = TwoCpu.shared s0 a') /\
  (to_UINT8 (TwoCpu.shared s0 a) = 0 \/ to_UINT8 (TwoCpu.shared s0 a) = 1 \/
   to_UINT8 (TwoCpu.shared s0 a) = 2 ->
   to_UINT8 (TwoCpu.shared s a) = 0 \/ to_UINT8 (TwoCpu.shared s a) = 1 \/
   to_UINT8 (TwoCpu.shared s a) = 2).
Proof.
  intros a. revert s0. induction schedule as [| c rest IH]; intros s0.
  - cbn [TwoCpu.run]. split; [reflexivity | trivial].
  - cbn [TwoCpu.run]. destruct (IH (TwoCpu.step b c s0)) as [Hframe Hbyte].
    split.
    + intros a' Ha'. rewrite Hframe by exact Ha'. now apply step_memory.
    + intros Hstart. apply Hbyte.
      change (to_UINT8 (TwoCpu.shared (TwoCpu.step b c s0) a))
        with (TwoCpu.v_lock (TwoCpu.view b (TwoCpu.step b c s0))).
      rewrite view_of_step.
      destruct (view_step_lock c (TwoCpu.view b s0)) as [-> | [-> | ->]].
      * exact Hstart.
      * now left.
      * destruct c; [right; left | right; right]; reflexivity.
Qed.

(** The invariant of the lock survives every step taken from a state in
    which the processors are not both between the read and the write. *)
Lemma lock_inv_view_step (c : TwoCpu.cpu_id) (v : TwoCpu.lock_view) :
  TwoCpu.lock_inv v ->
  ~ (fst (TwoCpu.v_pcp v) = TwoCpu.AtWrite /\
     fst (TwoCpu.v_host v) = TwoCpu.AtWrite) ->
  TwoCpu.lock_inv (TwoCpu.view_step c v).
Proof.
  destruct v as [[pc1 l1] [pc2 l2] l].
  unfold TwoCpu.lock_inv, TwoCpu.view_step, TwoCpu.view_cpu_step.
  cbn [TwoCpu.v_pcp TwoCpu.v_host TwoCpu.v_lock fst snd].
  lock_values.
  intros (P1 & P2 & H1 & H2) Hnb.
  destruct c; [destruct pc1 | destruct pc2];
    repeat match goal with
           | |- context [Z.eqb ?x ?y] => destruct (Z.eqb_spec x y)
           end;
    cbn [negb TwoCpu.v_pcp TwoCpu.v_host TwoCpu.v_lock fst snd];
    (split; [| split; [| split]]); intros Hpc; try discriminate Hpc;
    try (destruct (P1 eq_refl)); try (destruct (P2 eq_refl));
    try (destruct (H1 eq_refl)); try (destruct (H2 eq_refl));
    try (destruct (P1 Hpc)); try (destruct (P2 Hpc));
    try (destruct (H1 Hpc)); try (destruct (H2 Hpc));
    try lia;
    try (exfalso; apply Hnb; split; [reflexivity | assumption]);
    try (exfalso; apply Hnb; split; [assumption | reflexivity]).
Qed.

Lemma both_writing_view (b : Z) (s : TwoCpu.system) :
  TwoCpu.both_writing s = false ->
  ~ (fst (TwoCpu.v_pcp (TwoCpu.view b s)) = TwoCpu.AtWrite /\
     fst (TwoCpu.v_host (TwoCpu.view b s)) = TwoCpu.AtWrite).
Proof.
  unfold TwoCpu.both_writing, TwoCpu.view.
  cbn [TwoCpu.v_pcp TwoCpu.v_host fst]. intros H [H1 H2].
  rewrite H1, H2 in H. discriminate.
Qed.

Lemma lock_inv_run (b : Z) (schedule : list TwoCpu.cpu_id) (s : TwoCpu.system) :
  TwoCpu.lock_inv (TwoCpu.view b s) ->
  TwoCpu.race_free b schedule s = true ->
  TwoCpu.lock_inv (TwoCpu.view b (TwoCpu.run b schedule s)).
Proof.
  revert s. induction schedule as [| c rest IH]; intros s Hinv Hfree.
  - exact Hinv.
  - cbn [TwoCpu.run TwoCpu.race_free] in *.
    apply andb_true_iff in Hfree. destruct Hfree as [Hnow Hrest].
    apply negb_true_iff in Hnow.
    apply IH; [| exact Hrest].
    rewrite view_of_step.
    apply lock_inv_view_step; [exact Hinv | now apply both_writing_view].
Qed.

(** X16.  The lock excludes as long as the two processors are never both
    between their read of [UNLOCK] and their write of the identity: from
    both outside the locked section, on any memory, a schedule that visits
    no such state never has both processors past [circbuf_lock] at once;
    a processor that is past it has read its own identity and the lock
    byte holds that identity. *)
Theorem race_free_schedule_excludes
    (b : Z) (schedule : list TwoCpu.cpu_id) (m : Z -> Z) :
  TwoCpu.race_free b schedule (TwoCpu.start m) = true ->
  let s := TwoCpu.run b schedule (TwoCpu.start m) in
  TwoCpu.holds TwoCpu.PCP s && TwoCpu.holds TwoCpu.HOST s = false /\
  (forall c, TwoCpu.at_pc (TwoCpu.cpu_of c s) = TwoCpu.Locked ->
     TwoCpu.holds c s = true /\
     to_UINT8 (TwoCpu.shared s (field_address b offsetof_lock + 0))
     = TwoCpu.own_lock c).
Proof.
  intros Hfree s.
  assert (Hinv : TwoCpu.lock_inv (TwoCpu.view b s)).
  { apply lock_inv_run; [| exact Hfree].
    unfold TwoCpu.lock_inv, TwoCpu.view, TwoCpu.start.
    cbn [TwoCpu.v_pcp TwoCpu.v_host TwoCpu.pcp TwoCpu.host TwoCpu.at_pc fst].
    repeat split; discriminate. }
  unfold TwoCpu.lock_inv, TwoCpu.view in Hinv.
  cbn [TwoCpu.v_pcp TwoCpu.v_host TwoCpu.v_lock fst snd] in Hinv.
  destruct Hinv as (_ & Hp & _ & Hh).
  assert (Hholder : forall c,
            TwoCpu.at_pc (TwoCpu.cpu_of c s) = TwoCpu.Locked ->
            TwoCpu.holds c s = true /\
            to_UINT8 (TwoCpu.shared s (field_address b offsetof_lock + 0))
            = TwoCpu.own_lock c).
  { intros c Hc. unfold TwoCpu.holds. rewrite Hc.
    destruct c; cbn [TwoCpu.cpu_of] in *.
    - destruct (Hp Hc) as [Hbyte ->]. now rewrite Z.eqb_refl.
    - destruct (Hh Hc) as [Hbyte ->]. now rewrite Z.eqb_refl. }
  split; [| exact Hholder].
  destruct (TwoCpu.holds TwoCpu.PCP s) eqn:H1; [| reflexivity].
  destruct (TwoCpu.holds TwoCpu.HOST s) eqn:H2; [| reflexivity].
  exfalso. unfold TwoCpu.holds in H1, H2. cbn [TwoCpu.cpu_of] in H1, H2.
  destruct (TwoCpu.at_pc (TwoCpu.pcp s)) eqn:E1; try discriminate.
  destruct (TwoCpu.at_pc (TwoCpu.host s)) eqn:E2; try discriminate.
  destruct (Hp eq_refl) as [Hb1 _]. destruct (Hh eq_refl) as [Hb2 _].
  rewrite Hb1 in Hb2. discriminate.
Qed.

(** What a step adds to the log of the processor that takes it. *)
Lemma cpu_step_log (c : TwoCpu.cpu_id) (b : Z) (m : Z -> Z) (p : TwoCpu.cpu) :
  let a := field_address b offsetof_lock + 0 in
  let log' := wr_log (TwoCpu.own (fst (TwoCpu.cpu_step c b m p))) in
  log' = wr_log (TwoCpu.own p) \/
  log' = (a, CIRCBUF_HOSTIF_UNLOCK) :: wr_log (TwoCpu.own p) \/
  log' = (a, TwoCpu.own_lock c) :: wr_log (TwoCpu.own p).
Proof.
  unfold TwoCpu.cpu_step, HOSTIF_RD8, HOSTIF_WR8, quiet, TwoCpu.own_lock.
  cbn [TwoCpu.with_mem mem clock wr_log heap irq irq_saved].
  destruct (TwoCpu.at_pc p);
    repeat (destruct (Z.eqb _ _); cbn [negb]);
    cbn [fst TwoCpu.own]; rewrite ?gate_wr_log; cbn [wr_log];
    rewrite ?to_UINT8_lock; auto.
Qed.

Lemma cpu_step_irq (c : TwoCpu.cpu_id) (b : Z) (m : Z -> Z) (p : TwoCpu.cpu) :
  TwoCpu.irq_inv p -> TwoCpu.irq_inv (fst (TwoCpu.cpu_step c b m p)).
Proof.
  unfold TwoCpu.irq_inv, TwoCpu.cpu_step, HOSTIF_RD8, HOSTIF_WR8, quiet,
    target_enableGlobalInterrupt.
  cbn [TwoCpu.with_mem mem clock wr_log heap irq irq_saved].
  destruct (TwoCpu.at_pc p); intros [Hirq Hsaved];
    repeat (destruct (Z.eqb _ _); cbn [negb]);
    cbn [fst TwoCpu.own TwoCpu.at_pc irq irq_saved set_gate];
    rewrite ?Hirq, ?Hsaved; cbn [irq irq_saved set_gate];
    split; reflexivity.
Qed.

(** The log and the interrupt discipline of both processors, as one
    property of a state. *)
Lemma discipline_step (b : Z) (c : TwoCpu.cpu_id) (s : TwoCpu.system)
    (P : TwoCpu.cpu_id -> Z * Z -> Prop) :
  (forall d, P d (field_address b offsetof_lock + 0, CIRCBUF_HOSTIF_UNLOCK)) ->
  (forall d, P d (field_address b offsetof_lock + 0, TwoCpu.own_lock d)) ->
  (forall d, Forall (P d) (wr_log (TwoCpu.own (TwoCpu.cpu_of d s))) /\
             TwoCpu.irq_inv (TwoCpu.cpu_of d s)) ->
  forall d, Forall (P d) (wr_log (TwoCpu.own (TwoCpu.cpu_of d (TwoCpu.step b c s)))) /\
            TwoCpu.irq_inv (TwoCpu.cpu_of d (TwoCpu.step b c s)).
Proof.
  intros Hunlock Hown Hs d.
  assert (Hstep : forall e,
            Forall (P e) (wr_log (TwoCpu.own
              (fst (TwoCpu.cpu_step e b (TwoCpu.shared s) (TwoCpu.cpu_of e s))))) /\
            TwoCpu.irq_inv
              (fst (TwoCpu.cpu_step e b (TwoCpu.shared s) (TwoCpu.cpu_of e s)))).
  { intros e. destruct (Hs e) as [Hlog Hirq].
    split; [| now apply cpu_step_irq].
    destruct (cpu_step_log e b (TwoCpu.shared s) (TwoCpu.cpu_of e s))
      as [-> | [-> | ->]]; [exact Hlog | |]; constructor; auto. }
  unfold TwoCpu.step. destruct c.
  - specialize (Hstep TwoCpu.PCP). cbn [TwoCpu.cpu_of] in Hstep.
    destruct (TwoCpu.cpu_step TwoCpu.PCP b _ _) as [p' m'].
    destruct d; cbn [TwoCpu.cpu_of TwoCpu.pcp TwoCpu.host];
      [exact Hstep | exact (Hs TwoCpu.HOST)].
  - specialize (Hstep TwoCpu.HOST). cbn [TwoCpu.cpu_of] in Hstep.
    destruct (TwoCpu.cpu_step TwoCpu.HOST b _ _) as [p' m'].
    destruct d; cbn [TwoCpu.cpu_of TwoCpu.pcp TwoCpu.host];
      [exact (Hs TwoCpu.PCP) | exact Hstep].
Qed.

(** X17.  Under every schedule, from both processors outside the locked
    section: each write a processor has issued went to the lock byte and
    stored [UNLOCK] or that processor's identity, never the identity of
    the other; and a processor has interrupts off exactly while it is
    between its call of [circbuf_lock] and the end of its
    [circbuf_unlock]. *)
Theorem interleaved_discipline
    (b : Z) (schedule : list TwoCpu.cpu_id) (m : Z -> Z) (c : TwoCpu.cpu_id) :
  let p := TwoCpu.cpu_of c (TwoCpu.run b schedule (TwoCpu.start m)) in
  Forall (fun e => fst e = field_address b offsetof_lock + 0 /\
                   own_value (TwoCpu.config_of c) (snd e))
         (wr_log (TwoCpu.own p)) /\
  (irq (TwoCpu.own p) = true <-> TwoCpu.at_pc p = TwoCpu.Outside).
Proof.
  set (P := fun (d : TwoCpu.cpu_id) (e : Z * Z) =>
              fst e = field_address b offsetof_lock + 0 /\
              own_value (TwoCpu.config_of d) (snd e)).
  assert (Hrun : forall s,
            (forall d, Forall (P d) (wr_log (TwoCpu.own (TwoCpu.cpu_of d s))) /\
                       TwoCpu.irq_inv (TwoCpu.cpu_of d s)) ->
            forall d,
              Forall (P d)
                (wr_log (TwoCpu.own (TwoCpu.cpu_of d (TwoCpu.run b schedule s)))) /\
              TwoCpu.irq_inv (TwoCpu.cpu_of d (TwoCpu.run b schedule s))).
  { induction schedule as [| c0 rest IH]; intros s Hs; [exact Hs |].
    cbn [TwoCpu.run]. apply IH. apply discipline_step; [| | exact Hs].
    - intros d. split; [reflexivity | apply own_value_unlock].
    - intros d. split; [reflexivity | apply own_value_lock]. }
  intros p.
  destruct (Hrun (TwoCpu.start m)) with (d := c) as [Hlog Hirq].
  { intros d. destruct d; split; try constructor; reflexivity. }
  split; [exact Hlog |].
  fold p in Hirq. unfold TwoCpu.irq_inv in Hirq.
  destruct (TwoCpu.at_pc p); destruct Hirq as [Hirq _]; rewrite Hirq;
    split; intros H; try reflexivity; discriminate.
Qed.

(* ===================================================================== *)
(** ** Cache bypass *)
(* ===================================================================== *)

Lemma bypass_mask_value (mmu : bool) :
  to_size_t (NIOS2_BYPASS_DCACHE_MASK mmu) = 2 ^ bypass_bit mmu.
Proof. now destruct mmu. Qed.

Lemma bypass_bit_range (mmu : bool) : 0 <= bypass_bit mmu < 32.
Proof. destruct mmu; cbn; lia. Qed.

Lemma noncacheable_bits (mmu : bool) (ptr i : Z) :
  0 <= i ->
  Z.testbit (HOSTIF_MAKE_NONCACHEABLE mmu ptr) i
  = Z.testbit (to_size_t ptr) i || Z.eqb (bypass_bit mmu) i.
Proof.
  intros Hi. unfold HOSTIF_MAKE_NONCACHEABLE.
  rewrite Z.lor_spec, bypass_mask_value.
  rewrite Z.pow2_bits_eqb by apply bypass_bit_range. reflexivity.
Qed.

Lemma noncacheable_fits (mmu : bool) (ptr : Z) :
  to_size_t (HOSTIF_MAKE_NONCACHEABLE mmu ptr) = HOSTIF_MAKE_NONCACHEABLE mmu ptr.
Proof.
  apply Z.bits_inj'. intros i Hi. unfold to_size_t at 1, SIZE_MODULUS.
  destruct (Z.lt_ge_cases i 32) as [Hlow | Hhigh].
  - now rewrite Z.mod_pow2_bits_low.
  - rewrite Z.mod_pow2_bits_high by lia.
    rewrite noncacheable_bits by exact Hi.
    unfold to_size_t, SIZE_MODULUS. rewrite Z.mod_pow2_bits_high by lia.
    pose proof (bypass_bit_range mmu).
    symmetry. cbn [orb]. apply Z.eqb_neq. lia.
Qed.

(** X18.  [HOSTIF_MAKE_NONCACHEABLE] yields a 32-bit address with the
    bypass bit (31, or 29 with an MMU) set and every other bit as in the
    pointer given; applying it twice is the same as applying it once; and
    for a pointer below the bypass bit the result is the pointer plus
    [2^bit], so distinct cached addresses keep distinct aliases. *)
Theorem noncacheable_alias (mmu : bool) (ptr : Z) :
  let q := HOSTIF_MAKE_NONCACHEABLE mmu ptr in
  0 <= q < SIZE_MODULUS /\
  Z.testbit q (bypass_bit mmu) = true /\
  (forall i, 0 <= i -> i <> bypass_bit mmu ->
     Z.testbit q i = Z.testbit (to_size_t ptr) i) /\
  HOSTIF_MAKE_NONCACHEABLE mmu q = q /\
  (0 <= ptr < 2 ^ bypass_bit mmu -> q = ptr + 2 ^ bypass_bit mmu).
Proof.
  intros q. pose proof (bypass_bit_range mmu) as Hbit.
  split; [| split; [| split; [| split]]].
  - unfold q. rewrite <- noncacheable_fits. unfold to_size_t, SIZE_MODULUS.
    apply Z.mod_pos_bound. lia.
  - unfold q. rewrite noncacheable_bits by lia.
    rewrite Z.eqb_refl. apply orb_true_r.
  - intros i Hi Hne. unfold q. rewrite noncacheable_bits by exact Hi.
    destruct (Z.eqb_spec (bypass_bit mmu) i) as [E | _];
      [now elim Hne | apply orb_false_r].
  - unfold HOSTIF_MAKE_NONCACHEABLE at 1. fold q.
    unfold q at 1. rewrite noncacheable_fits. fold q.
    unfold q, HOSTIF_MAKE_NONCACHEABLE.
    now rewrite <- Z.lor_assoc, Z.lor_diag.
  - intros Hptr. unfold q, HOSTIF_MAKE_NONCACHEABLE.
    rewrite bypass_mask_value.
    assert (Hsmall : to_size_t ptr = ptr).
    { apply to_size_t_small. unfold SIZE_MODULUS.
      assert (2 ^ bypass_bit mmu <= 2 ^ 31)
        by (apply Z.pow_le_mono_r; lia).
      lia. }
    rewrite Hsmall.
    rewrite (Z.add_nocarry_lor ptr (2 ^ bypass_bit mmu)); [reflexivity |].
    apply Z.bits_inj'. intros i Hi.
    rewrite Z.land_spec, Z.bits_0, Z.pow2_bits_eqb by lia.
    destruct (Z.eqb_spec (bypass_bit mmu) i) as [<- | _];
      [| apply andb_false_r].
    rewrite andb_true_r. destruct (Z.eq_dec ptr 0) as [-> | Hnz];
      [apply Z.bits_0 |].
    apply Z.bits_above_log2; [lia |].
    apply Z.log2_lt_pow2; lia.
Qed.

(* ===================================================================== *)
(** ** The further theorems at the concrete target *)
(* ===================================================================== *)

Lemma lock_returns_with_own_identity_witness :
  let w' := fst (circbuf_lock true quiet 2 shared_instance_ready
                   (sample_world 0)) in
  irq w' = false /\ heap w' = [] /\ to_UINT8 (mem w' sample_base) = 1.
Proof.
  intros w'.
  destruct (lock_returns_with_own_identity quiet true 2 shared_instance_ready
              (sample_world 0) w' (Some 1) eq_refl)
    as (Hirq & Hheap & _ & Hshared).
  destruct Hshared as [_ Hbyte]; [vm_compute; lia |].
  split; [exact Hirq |]. split; [exact Hheap | exact Hbyte].
Defined.

Lemma lock_spins_while_held_witness :
  exists w',
    circbuf_lock true quiet 7 shared_instance_ready (sample_world 2)
    = (w', Spinning) /\
    wr_log w' = [] /\ clock w' = 7%nat /\ mem w' sample_base = 2 /\
    irq w' = false.
Proof.
  apply (lock_spins_while_held quiet true 7 shared_instance_ready
           (sample_world 2));
    [vm_compute; lia | reflexivity | vm_compute; lia | vm_compute; lia].
Defined.

Lemma lock_then_unlock_witness :
  exists w1,
    circbuf_lock true quiet 2 shared_instance_ready (masked_world 0)
    = (w1, Returned (Some 1)) /\
    let w2 := circbuf_unlock quiet shared_instance_ready w1 in
    mem w2 sample_base = 0 /\
    wr_log w2 = [(sample_base, 0); (sample_base, 1)] /\
    clock w2 = 4%nat /\ heap w2 = [] /\
    irq w2 = false /\ irq_saved w2 = [true].
Proof.
  apply (lock_then_unlock quiet true 2 shared_instance_ready (masked_world 0));
    [vm_compute; lia | reflexivity | reflexivity | lia].
Defined.

Lemma lock_again_then_unlock_witness :
  exists w1,
    circbuf_lock true quiet 1 shared_instance_ready (masked_world 1)
    = (w1, Returned (Some 1)) /\
    wr_log w1 = [] /\ clock w1 = 1%nat /\ mem w1 sample_base = 1 /\
    let w2 := circbuf_unlock quiet shared_instance_ready w1 in
    mem w2 sample_base = 0 /\ irq w2 = false /\ irq_saved w2 = [true].
Proof.
  apply (lock_again_then_unlock quiet true 1 shared_instance_ready
           (masked_world 1));
    [vm_compute; lia | reflexivity | reflexivity | lia].
Defined.

Lemma lock_local_is_interrupt_gate_witness :
  circbuf_lock true quiet 0 local_instance (masked_world 0)
  = (mkWorld (fun _ => 0) [] 0%nat [] false [false; true], Returned None) /\
  circbuf_unlock quiet local_instance
    (fst (circbuf_lock true quiet 0 local_instance (masked_world 0)))
  = masked_world 0.
Proof.
  destruct (lock_local_is_interrupt_gate quiet true 0 local_instance
              (masked_world 0) eq_refl) as (Hlock & _ & _ & _ & _ & _ & Hunlock).
  split; [exact Hlock | exact Hunlock].
Defined.

Lemma allocBuffer_shared_writes_lock_only_witness :
  exists inst' s' w',
    circbuf_allocBuffer sample_sizeof_header sample_getBuf sample_malloc quiet
      shared_instance 1024 (sample_world 2)
    = Some (kCircBufOk, inst', s', w') /\
    mem w' sample_base = 0 /\
    (forall a, a <> sample_base -> mem w' a = 2) /\
    wr_log w' = [(sample_base, 0)] /\
    clock w' = 1%nat /\ heap w' = [] /\ irq w' = true /\
    pCircBufArchInstance inst' = HOSTIF_BASE /\ bufferId inst' = 0%nat.
Proof.
  apply (allocBuffer_shared_writes_lock_only sample_sizeof_header
           sample_getBuf sample_malloc quiet shared_instance 1024
           (sample_world 2) kHostifInstIdU2KQueue sample_base 2048);
    [vm_compute; lia | reflexivity | reflexivity
     | vm_compute; split; [discriminate | reflexivity] | lia].
Defined.

Lemma allocBuffer_shared_success_witness :
  exists inst' s' w',
    circbuf_allocBuffer sample_sizeof_header sample_getBuf sample_malloc quiet
      shared_instance 1024 (sample_world 0)
    = Some (kCircBufOk, inst', s', w') /\
    pCircBufHeader inst' = sample_base + 4 /\
    pCircBuf inst' = sample_base + sizeof_tCircBufHostiBuffer sample_sizeof_header /\
    s' = 1024 - sizeof_tCircBufHostiBuffer sample_sizeof_header /\
    wr_log w' = (sample_base, CIRCBUF_HOSTIF_UNLOCK) :: [] /\
    mem w' sample_base = CIRCBUF_HOSTIF_UNLOCK /\
    sample_base <= pCircBuf inst' /\ pCircBuf inst' + s' <= sample_base + 2048.
Proof.
  apply (allocBuffer_shared_success sample_sizeof_header sample_getBuf
           sample_malloc quiet shared_instance 1024 (sample_world 0)
           kHostifInstIdU2KQueue sample_base 2048);
    try reflexivity; vm_compute; try lia;
    try (intros H; discriminate H); split; intros H; discriminate H.
Defined.

Lemma allocBuffer_local_wraps_witness :
  exists inst' w',
    circbuf_allocBuffer sample_sizeof_header sample_getBuf sample_malloc quiet
      local_instance 4294967292 (sample_world 0)
    = Some (kCircBufOk, inst', 4294967292, w') /\
    pCircBufHeader inst' = 0x2000 /\
    heap w' = [(0x2000, 16)] /\
    16 < 4294967292.
Proof.
  apply (allocBuffer_local_wraps sample_sizeof_header sample_getBuf
           sample_malloc quiet local_instance 4294967292 (sample_world 0)
           0x2000);
    try reflexivity; unfold sample_sizeof_header, SIZE_MODULUS, NULL; lia.
Defined.

Lemma allocBuffer_then_freeBuffer_witness :
  circbuf_freeBuffer local_instance_ready
    (set_heap [(0x2000, 84)] (sample_world 0))
  = Some (local_instance_ready, sample_world 0) /\
  pCircBufHeader local_instance_ready <> NULL /\
  pCircBufHeader local_instance_ready = 0x2000.
Proof.
  apply (allocBuffer_then_freeBuffer sample_sizeof_header sample_getBuf
           sample_malloc quiet local_instance 64 (sample_world 0)
           local_instance_ready 64 (set_heap [(0x2000, 84)] (sample_world 0)));
    reflexivity.
Defined.

Lemma allocBuffer_refused_then_freeBuffer_witness :
  circbuf_allocBuffer sample_sizeof_header sample_getBuf null_malloc quiet
    local_instance_ready 64 (sample_world 0)
  = Some (kCircBufNoResource, set_pCircBufHeader NULL local_instance_ready,
          64, sample_world 0) /\
  circbuf_freeBuffer (set_pCircBufHeader NULL local_instance_ready)
    (sample_world 0)
  = Some (set_pCircBufHeader NULL local_instance_ready, sample_world 0).
Proof.
  apply (allocBuffer_refused_then_freeBuffer sample_sizeof_header
           sample_getBuf null_malloc quiet local_instance_ready 64
           (sample_world 0));
    reflexivity.
Defined.

Lemma allocBuffer_twice_keeps_first_block_witness :
  let inst2 := mkInstance NULL 2 0x3000 (0x3000 + 20) in
  let w2 := set_heap [(0x3000, 52); (0x2000, 84)] (sample_world 0) in
  exists w3,
    circbuf_freeBuffer inst2 w2 = Some (inst2, w3) /\
    existsb (is_block 0x2000) (heap w3) = true /\
    existsb (is_block 0x3000) (heap w3) = false.
Proof.
  intros inst2 w2.
  apply (allocBuffer_twice_keeps_first_block sample_sizeof_header
           sample_getBuf next_malloc quiet local_instance 64 32
           (sample_world 0) local_instance_ready inst2 64 32
           (set_heap [(0x2000, 84)] (sample_world 0)) w2);
    try reflexivity.
  vm_compute. lia.
Defined.

Lemma connectBuffer_after_allocBuffer_witness :
  circbuf_connectBuffer sample_sizeof_header sample_getBuf
    shared_instance (sample_world 1)
  = Some (kCircBufOk, shared_instance_ready, sample_world 1) /\
  circbuf_connectBuffer sample_sizeof_header sample_getBuf
    shared_instance_ready (sample_world 1)
  = Some (kCircBufOk, shared_instance_ready, sample_world 1).
Proof.
  apply (connectBuffer_after_allocBuffer sample_sizeof_header sample_getBuf
           sample_malloc quiet shared_instance 1024 (sample_world 0)
           shared_instance_ready 1000
           (HOSTIF_WR8 quiet sample_base 0 CIRCBUF_HOSTIF_UNLOCK (sample_world 0))
           kHostifInstIdU2KQueue);
    [vm_compute; lia | reflexivity | reflexivity].
Defined.

Lemma createInstance_frame_witness :
  let l' := <[4%nat := mkInstance HOSTIF_BASE 4 NULL NULL]> sample_instance_l in
  length l' = length sample_instance_l /\
  (forall j, j <> 4%nat -> l' !! j = sample_instance_l !! j) /\
  (exists old new,
     sample_instance_l !! 4%nat = Some old /\ l' !! 4%nat = Some new /\
     pCircBufHeader new = pCircBufHeader old /\
     pCircBuf new = pCircBuf old) /\
  circbuf_createInstance sample_getInstance 4 l' = Some (Some 4%nat, l').
Proof.
  intros l'.
  apply (createInstance_frame sample_getInstance 4 sample_instance_l l'
           (Some 4%nat)).
  reflexivity.
Defined.

Lemma created_instance_is_usable_witness :
  4%nat = 4%nat /\
  (bufferId (mkInstance HOSTIF_BASE 4 NULL NULL) < NR_OF_CIRC_BUFFERS)%nat /\
  is_Some (circbuf_allocBuffer sample_sizeof_header sample_getBuf sample_malloc
             quiet (mkInstance HOSTIF_BASE 4 NULL NULL) 1024 (sample_world 0)) /\
  is_Some (circbuf_connectBuffer sample_sizeof_header sample_getBuf
             (mkInstance HOSTIF_BASE 4 NULL NULL) (sample_world 0)).
Proof.
  apply (created_instance_is_usable sample_sizeof_header sample_getInstance
           sample_getBuf sample_malloc quiet 4 4 sample_instance_l
           (<[4%nat := mkInstance HOSTIF_BASE 4 NULL NULL]> sample_instance_l));
    reflexivity.
Defined.

Lemma lock_byte_is_all_that_changes_witness :
  let s := TwoCpu.run sample_base TwoCpu.race (TwoCpu.start (fun _ => 0)) in
  (forall a', a' <> sample_base -> TwoCpu.shared s a' = 0) /\
  (to_UINT8 (TwoCpu.shared s sample_base) = 0 \/
   to_UINT8 (TwoCpu.shared s sample_base) = 1 \/
   to_UINT8 (TwoCpu.shared s sample_base) = 2).
Proof.
  intros s.
  destruct (lock_byte_is_all_that_changes sample_base TwoCpu.race
              (TwoCpu.start (fun _ => 0))) as [Hframe Hbyte].
  split; [exact Hframe |]. apply Hbyte. left. reflexivity.
Defined.

Lemma race_free_schedule_excludes_witness :
  let s := TwoCpu.run sample_base TwoCpu.handover (TwoCpu.start (fun _ => 0)) in
  TwoCpu.holds TwoCpu.PCP s && TwoCpu.holds TwoCpu.HOST s = false /\
  TwoCpu.holds TwoCpu.HOST s = true /\
  to_UINT8 (TwoCpu.shared s sample_base) = 2.
Proof.
  intros s.
  destruct (race_free_schedule_excludes sample_base TwoCpu.handover
              (fun _ => 0) eq_refl) as [Hexcl Hholder].
  split; [exact Hexcl |]. apply (Hholder TwoCpu.HOST). reflexivity.
Defined.

Lemma noncacheable_alias_witness :
  HOSTIF_MAKE_NONCACHEABLE false sample_base = sample_base + 2 ^ 31 /\
  HOSTIF_MAKE_NONCACHEABLE true sample_base = sample_base + 2 ^ 29.
Proof.
  split.
  - apply (noncacheable_alias false sample_base). vm_compute.
    split; [discriminate | reflexivity].
  - apply (noncacheable_alias true sample_base). vm_compute.
    split; [discriminate | reflexivity].
Defined.

Lemma lock_race_anywhere_witness :
  let s := TwoCpu.run sample_base TwoCpu.race (TwoCpu.start (fun _ => 0)) in
  TwoCpu.holds TwoCpu.PCP s = true /\ TwoCpu.holds TwoCpu.HOST s = true.
Proof.
  apply (lock_race_anywhere sample_base (fun _ => 0)). reflexivity.
Defined.

(** X20.  [circbuf_lock] and [circbuf_unlock] do not look whether a
    buffer is attached: on a shared instance whose header pointer is still
    [NULL] (created, neither allocated nor connected) the envelope base
    wraps to [2^32 - 4], [circbuf_unlock] writes [UNLOCK] to that address,
    and every pass of [circbuf_lock] reads it. *)
Theorem unattached_instance_lock_address
    (remote : nat -> (Z -> Z) -> (Z -> Z)) (CONFIG_HOSTIF_PCP : bool)
    (inst : tCircBufInstance) (w : world) :
  pCircBufArchInstance inst <> NULL ->
  pCircBufHeader inst = NULL ->
  GET_QUEUE_BUF_BASE (pCircBufHeader inst) = SIZE_MODULUS - 4 /\
  wr_log (circbuf_unlock remote inst w)
    = (SIZE_MODULUS - 4, CIRCBUF_HOSTIF_UNLOCK) :: wr_log w /\
  fst (fst (lock_pass CONFIG_HOSTIF_PCP remote
              (GET_QUEUE_BUF_BASE (pCircBufHeader inst)) w))
    = to_UINT8 (remote (clock w) (mem w) (SIZE_MODULUS - 4)).
Proof.
  intros Harch Hnull.
  assert (Hbase : GET_QUEUE_BUF_BASE (pCircBufHeader inst) = SIZE_MODULUS - 4)
    by (rewrite Hnull; reflexivity).
  split; [exact Hbase |]. split.
  - unfold circbuf_unlock.
    destruct (Z.eqb_spec (pCircBufArchInstance inst) NULL) as [E | _];
      [contradiction |].
    rewrite Hbase, gate_wr_log. reflexivity.
  - rewrite Hbase. unfold lock_pass, HOSTIF_RD8.
    change (field_address (SIZE_MODULUS - 4) offsetof_lock + 0)
      with (SIZE_MODULUS - 4).
    now destruct (Z.eqb _ CIRCBUF_HOSTIF_UNLOCK).
Qed.

Lemma unattached_instance_lock_address_witness :
  GET_QUEUE_BUF_BASE (pCircBufHeader shared_instance) = 4294967292 /\
  wr_log (circbuf_unlock quiet shared_instance (sample_world 0))
    = [(4294967292, 0)].
Proof.
  destruct (unattached_instance_lock_address quiet true shared_instance
              (sample_world 0)) as (Hbase & Hlog & _);
    [vm_compute; lia | reflexivity |].
  split; [exact Hbase | exact Hlog].
Defined.
